(** * Jarvis Chat API (sythioBackend): a shallow embedding of the backend

    The development follows the source files:
    - [models.py]      : the records exchanged with the store and the client;
    - [database.py]    : [DatabaseService], a gateway over the Supabase client;
    - [ai_service.py]  : [AIService], an adapter over the OpenAI client;
    - [main.py]        : the FastAPI endpoints, above all [stream_message] and
                         its generator [generate_stream].

    Async functions are modelled as computations in a monad that threads the
    state of the store, may raise a Python exception, and records what the
    outside world can observe (store calls and chunks sent to the client), in
    order.  The Supabase, OpenAI and FastAPI libraries are outside the
    repository: each is given a small executable meaning, stated where it is
    introduced.

    Conventions.  Identifiers and timestamps are server-assigned and opaque
    in the source; they are natural numbers here.  A Python string is
    represented by its UTF-8 encoding, one byte per character of the Rocq
    string: [len] counts its characters (code points), white space is
    Unicode white space, and a string is empty exactly when its encoding
    is.
    [print] calls and [asyncio.sleep] have no counterpart.  A generator is
    run to its end: a client that disconnects in the middle of a stream is
    not modelled.  Database triggers (such as the bump of a conversation's
    [updated_at]) are not in the source and not modelled. *)

From Stdlib Require Import List String Ascii Arith NArith Bool Lia Sorted
  Permutation.
Import ListNotations.
Open Scope string_scope.
Open Scope nat_scope.
Open Scope list_scope.

(* ================================================================== *)
(** ** models.py *)

Inductive MessageRole := USER | ASSISTANT.

Definition MessageRole_value (r : MessageRole) : string :=
  match r with USER => "user" | ASSISTANT => "assistant" end.

(** [MessageCreate]: the request body of the stream endpoint. *)
Record MessageCreate := { mc_content : string }.

Record MessageResponse := {
  m_id : nat;
  m_chat_id : nat;
  m_role : MessageRole;
  m_content : string;
  m_created_at : nat;
  m_updated_at : nat;
  m_is_streaming : bool
}.

Record ChatResponse := {
  c_id : nat;
  c_title : string;
  c_created_at : nat;
  c_updated_at : nat;
  c_user_id : string
}.

(** [StreamResponse]: one server-sent event; [type] is one of
    "token", "complete", "error". *)
Record StreamResponse := {
  type : string;
  content : string;
  message_id : option nat
}.

(* ================================================================== *)
(** ** Python exceptions and the effect monad *)

Inductive exn :=
| HTTPException (status_code : nat) (detail : string)
| RequestValidationError (msg : string)
| ValueError (msg : string)
| APIError (msg : string)      (* raised by the store client *)
| OpenAIError (msg : string)   (* raised by the completion client *)
| Exception (msg : string).

(** [str(e)]: the message the exception was built with (for an
    [HTTPException], which no caller of [str] ever meets, its detail). *)
Definition str (e : exn) : string :=
  match e with
  | HTTPException _ detail => detail
  | RequestValidationError msg => msg
  | ValueError msg => msg
  | APIError msg => msg
  | OpenAIError msg => msg
  | Exception msg => msg
  end.

Inductive Result (A : Type) :=
| Ok (a : A)
| Raise (e : exn).
Arguments Ok {A} a.
Arguments Raise {A} e.

(** The statements the gateway sends to the store, one per query built in
    database.py. *)
Inductive Stmt :=
| InsertChat (title user_id : string)
| SelectChats (user_id : string)
| CountMessages (chat_id : nat)
| SelectChat (chat_id : nat) (user_id : string)
| SelectMessages (chat_id : nat)
| InsertMessage (chat_id : nat) (role : MessageRole) (content : string)
                (is_streaming : bool)
| UpdateMessage (message_id : nat) (content : string)
                (is_streaming : option bool)
| UpdateChatTitle (chat_id : nat) (title : string)
| DeleteChat (chat_id : nat) (user_id : string).

(** What can be observed of a run, in order: a chunk yielded to the client,
    or an [execute()] call on the store and whether it returned normally. *)
Inductive Obs :=
| Sent (chunk : StreamResponse)
| Exec (q : Stmt) (ok : bool).

(** The store: its two tables, the counters behind server-assigned
    identifiers and timestamps, and the outcome of the coming [execute()]
    calls ([Some msg]: the call fails with [APIError msg]; the store is
    available once the list is exhausted). *)
Record Store := {
  chats : list ChatResponse;
  messages : list MessageResponse;
  next_id : nat;
  now : nat;
  faults : list (option string)
}.

Definition M (A : Type) : Type := Store -> Result A * Store * list Obs.

Definition ret {A} (a : A) : M A := fun w => (Ok a, w, []).

Definition raise {A} (e : exn) : M A := fun w => (Raise e, w, []).

Definition bind {A B} (m : M A) (f : A -> M B) : M B :=
  fun w =>
    match m w with
    | (Ok a, w1, t1) =>
        match f a w1 with
        | (r, w2, t2) => (r, w2, t1 ++ t2)
        end
    | (Raise e, w1, t1) => (Raise e, w1, t1)
    end.

(** [try: m  except Exception as e: h e] *)
Definition try_except {A} (m : M A) (h : exn -> M A) : M A :=
  fun w =>
    match m w with
    | (Ok a, w1, t1) => (Ok a, w1, t1)
    | (Raise e, w1, t1) =>
        match h e w1 with
        | (r, w2, t2) => (r, w2, t1 ++ t2)
        end
    end.

Definition lift {A} (r : Result A) : M A := fun w => (r, w, []).

(** [yield chunk] inside a streaming generator *)
Definition yield (chunk : StreamResponse) : M unit :=
  fun w => (Ok tt, w, [Sent chunk]).

Notation "x <- m ;; k" := (bind m (fun x => k))
  (at level 61, m at next level, right associativity).
Notation "m ;;; k" := (bind m (fun _ => k))
  (at level 61, right associativity).

Definition result_of {A} (x : Result A * Store * list Obs) : Result A :=
  fst (fst x).
Definition store_of {A} (x : Result A * Store * list Obs) : Store :=
  snd (fst x).
Definition trace_of {A} (x : Result A * Store * list Obs) : list Obs :=
  snd x.

(** The chunks the client receives, and the store calls, of a trace. *)
Fixpoint sent (t : list Obs) : list StreamResponse :=
  match t with
  | [] => []
  | Sent c :: t' => c :: sent t'
  | Exec _ _ :: t' => sent t'
  end.

Fixpoint calls (t : list Obs) : list (Stmt * bool) :=
  match t with
  | [] => []
  | Sent _ :: t' => calls t'
  | Exec q ok :: t' => (q, ok) :: calls t'
  end.

(* ================================================================== *)
(** ** The Supabase client

    The client library is not part of the repository; this is the meaning
    given to the queries database.py builds: [eq] filters, [order] sorts
    (stably), [limit] truncates, [single] demands exactly one row,
    [insert] stamps the row with a fresh identifier and the current time,
    [update] rewrites the named columns of the matching rows, [delete]
    removes the matching rows and, by the schema's CASCADE, their
    messages. *)

Module Supabase.

Definition with_faults (fs : list (option string)) (w : Store) : Store :=
  {| chats := chats w; messages := messages w; next_id := next_id w;
     now := now w; faults := fs |}.

Definition is_ok {A} (r : Result A) : bool :=
  match r with Ok _ => true | Raise _ => false end.

(** [.execute()]: the next outcome of the store decides whether the call
    reaches the tables. *)
Definition execute {A} (q : Stmt) (sem : Store -> Result A * Store) : M A :=
  fun w =>
    match faults w with
    | Some msg :: fs => (Raise (APIError msg), with_faults fs w, [Exec q false])
    | None :: fs =>
        match sem (with_faults fs w) with
        | (r, w') => (r, w', [Exec q (is_ok r)])
        end
    | [] =>
        match sem w with
        | (r, w') => (r, w', [Exec q (is_ok r)])
        end
    end.

(** [order(key)]: a stable insertion sort on a numeric column. *)
Fixpoint insert_by {A} (key : A -> nat) (desc : bool) (x : A) (l : list A)
  : list A :=
  match l with
  | [] => [x]
  | y :: l' =>
      if (if desc then key y <=? key x else key x <=? key y)
      then x :: y :: l'
      else y :: insert_by key desc x l'
  end.

Fixpoint order {A} (key : A -> nat) (desc : bool) (l : list A) : list A :=
  match l with
  | [] => []
  | x :: l' => insert_by key desc x (order key desc l')
  end.

Definition limit {A} (n : nat) (l : list A) : list A := firstn n l.

Definition chats_insert (title user_id : string) : M (list ChatResponse) :=
  execute (InsertChat title user_id) (fun w =>
    let row := {| c_id := next_id w; c_title := title;
                  c_created_at := now w; c_updated_at := now w;
                  c_user_id := user_id |} in
    (Ok [row],
     {| chats := chats w ++ [row]; messages := messages w;
        next_id := S (next_id w); now := S (now w); faults := faults w |})).

Definition chats_select (user_id : string) : M (list ChatResponse) :=
  execute (SelectChats user_id) (fun w =>
    (Ok (limit 50
           (order c_updated_at true
              (filter (fun c => String.eqb (c_user_id c) user_id) (chats w)))),
     w)).

(** [select("id", count="exact").eq("chat_id", ...)]: the [count] of the
    response. *)
Definition messages_count (chat_id : nat) : M (option nat) :=
  execute (CountMessages chat_id) (fun w =>
    (Ok (Some (List.length (filter (fun m => m_chat_id m =? chat_id) (messages w)))),
     w)).

Definition chats_select_single (chat_id : nat) (user_id : string)
  : M (option ChatResponse) :=
  execute (SelectChat chat_id user_id) (fun w =>
    match filter (fun c => (c_id c =? chat_id)
                           && String.eqb (c_user_id c) user_id) (chats w) with
    | [row] => (Ok (Some row), w)
    | _ => (Raise (APIError "JSON object requested, multiple (or no) rows returned"), w)
    end).

Definition messages_select (chat_id : nat) : M (list MessageResponse) :=
  execute (SelectMessages chat_id) (fun w =>
    (Ok (order m_created_at false
           (filter (fun m => m_chat_id m =? chat_id) (messages w))),
     w)).

Definition messages_insert (chat_id : nat) (role : MessageRole)
    (content : string) (is_streaming : bool) : M (list MessageResponse) :=
  execute (InsertMessage chat_id role content is_streaming) (fun w =>
    let row := {| m_id := next_id w; m_chat_id := chat_id; m_role := role;
                  m_content := content; m_created_at := now w;
                  m_updated_at := now w; m_is_streaming := is_streaming |} in
    (Ok [row],
     {| chats := chats w; messages := messages w ++ [row];
        next_id := S (next_id w); now := S (now w); faults := faults w |})).

(** The row after [update(update_data)], [update_data] holding "content"
    and, when given, "is_streaming". *)
Definition set_message (content : string) (is_streaming : option bool)
    (m : MessageResponse) : MessageResponse :=
  {| m_id := m_id m; m_chat_id := m_chat_id m; m_role := m_role m;
     m_content := content; m_created_at := m_created_at m;
     m_updated_at := m_updated_at m;
     m_is_streaming := match is_streaming with
                       | Some b => b
                       | None => m_is_streaming m
                       end |}.

Definition update_rows {A} (p : A -> bool) (f : A -> A) (l : list A)
  : list A :=
  map (fun x => if p x then f x else x) l.

Definition messages_update (content : string) (is_streaming : option bool)
    (message_id : nat) : M (list MessageResponse) :=
  execute (UpdateMessage message_id content is_streaming) (fun w =>
    let hit := fun m => m_id m =? message_id in
    (Ok (map (set_message content is_streaming) (filter hit (messages w))),
     {| chats := chats w;
        messages := update_rows hit (set_message content is_streaming)
                      (messages w);
        next_id := next_id w; now := now w; faults := faults w |})).

Definition set_title (title : string) (c : ChatResponse) : ChatResponse :=
  {| c_id := c_id c; c_title := title; c_created_at := c_created_at c;
     c_updated_at := c_updated_at c; c_user_id := c_user_id c |}.

Definition chats_update_title (title : string) (chat_id : nat)
  : M (list ChatResponse) :=
  execute (UpdateChatTitle chat_id title) (fun w =>
    let hit := fun c => c_id c =? chat_id in
    (Ok (map (set_title title) (filter hit (chats w))),
     {| chats := update_rows hit (set_title title) (chats w);
        messages := messages w;
        next_id := next_id w; now := now w; faults := faults w |})).

Definition chats_delete (chat_id : nat) (user_id : string)
  : M (list ChatResponse) :=
  execute (DeleteChat chat_id user_id) (fun w =>
    let hit := fun c => (c_id c =? chat_id)
                        && String.eqb (c_user_id c) user_id in
    let gone := filter hit (chats w) in
    (Ok gone,
     {| chats := filter (fun c => negb (hit c)) (chats w);
        messages := match gone with
                    | [] => messages w
                    | _ => filter (fun m => negb (m_chat_id m =? chat_id))
                             (messages w)
                    end;
        next_id := next_id w; now := now w; faults := faults w |})).

End Supabase.

(* ================================================================== *)
(** ** config.py *)

Definition DEMO_USER_ID : string := "demo-user".

(* ================================================================== *)
(** ** database.py: DatabaseService *)

Module db.

Definition create_chat (title user_id : string) : M ChatResponse :=
  try_except
    (result <- Supabase.chats_insert title user_id ;;
     match result with
     | row :: _ => ret row
     | [] => raise (Exception "Failed to create chat")
     end)
    (fun e => raise e).

(** The [for chat_data in result.data] loop of [get_chats]. *)
Fixpoint get_chats_loop (data : list ChatResponse)
    (chats_with_messages : list ChatResponse) : M (list ChatResponse) :=
  match data with
  | [] => ret chats_with_messages
  | chat_data :: rest =>
      messages_count <- Supabase.messages_count (c_id chat_data) ;;
      if match messages_count with
         | Some count => negb (count =? 0) && (0 <? count)
         | None => false
         end
      then get_chats_loop rest (chats_with_messages ++ [chat_data])
      else get_chats_loop rest chats_with_messages
  end.

Definition get_chats (user_id : string) : M (list ChatResponse) :=
  try_except
    (result <- Supabase.chats_select user_id ;;
     get_chats_loop result [])
    (fun e => raise e).

Definition get_chat (chat_id : nat) (user_id : string)
  : M (option ChatResponse) :=
  try_except
    (result <- Supabase.chats_select_single chat_id user_id ;;
     match result with
     | Some row => ret (Some row)
     | None => ret None
     end)
    (fun _ => ret None).

Definition get_messages (chat_id : nat) : M (list MessageResponse) :=
  try_except (Supabase.messages_select chat_id) (fun e => raise e).

Definition create_message (chat_id : nat) (role : MessageRole)
    (content : string) (is_streaming : bool) : M MessageResponse :=
  try_except
    (result <- Supabase.messages_insert chat_id role content is_streaming ;;
     match result with
     | row :: _ => ret row
     | [] => raise (Exception "Failed to create message")
     end)
    (fun e => raise e).

Definition update_message_content (message_id : nat) (content : string)
    (is_streaming : option bool) : M MessageResponse :=
  try_except
    (result <- Supabase.messages_update content is_streaming message_id ;;
     match result with
     | row :: _ => ret row
     | [] => raise (Exception "Failed to update message")
     end)
    (fun e => raise e).

Definition update_chat_title (chat_id : nat) (title : string)
  : M ChatResponse :=
  try_except
    (result <- Supabase.chats_update_title title chat_id ;;
     match result with
     | row :: _ => ret row
     | [] => raise (Exception "Failed to update chat title")
     end)
    (fun e => raise e).

Definition delete_chat (chat_id : nat) (user_id : string) : M bool :=
  try_except
    (result <- Supabase.chats_delete chat_id user_id ;;
     ret (0 <? List.length result))
    (fun _ => ret false).

End db.

(* ================================================================== *)
(** ** Python strings *)

(** A byte that continues a character of a UTF-8 encoding (10xxxxxx). *)
Definition continuation (c : ascii) : bool :=
  let n := nat_of_ascii c in (128 <=? n) && (n <=? 191).

(** [len(s)]: the number of characters, that is of bytes that start one. *)
Fixpoint len (s : string) : nat :=
  match s with
  | EmptyString => 0
  | String c s' => if continuation c then len s' else S (len s')
  end.

(** The UTF-8 encoding of a code point below 65536. *)
Definition utf8 (cp : N) : string :=
  (if cp <? 128 then String (ascii_of_N cp) ""
   else if cp <? 2048 then
     String (ascii_of_N (192 + cp / 64))
       (String (ascii_of_N (128 + cp mod 64)) "")
   else
     String (ascii_of_N (224 + cp / 4096))
       (String (ascii_of_N (128 + (cp / 64) mod 64))
          (String (ascii_of_N (128 + cp mod 64)) "")))%N.

(** The code points from [first] to [last]. *)
Definition code_points (first last : N) : list N :=
  map (fun i => (first + N.of_nat i)%N) (seq 0 (S (N.to_nat (last - first)))).

(** The characters [str.isspace] holds of, which [str.strip()] removes:
    U+0009..U+000D, U+001C..U+0020, U+0085, U+00A0, U+1680,
    U+2000..U+200A, U+2028, U+2029, U+202F, U+205F, U+3000. *)
Definition whitespace : list N :=
  (code_points 9 13 ++ code_points 28 32 ++ [133; 160; 5760]
   ++ code_points 8192 8202 ++ [8232; 8233; 8239; 8287; 12288])%N.

(** The number of bytes of the white space character [s] starts with; 0
    when it starts with none. *)
Definition space_width (s : string) : nat :=
  match find (fun cp => prefix (utf8 cp) s) whitespace with
  | Some cp => String.length (utf8 cp)
  | None => 0
  end.

(** [t] is one white space character. *)
Definition is_space_encoding (t : string) : bool :=
  existsb (fun cp => String.eqb t (utf8 cp)) whitespace.

(** Dropping the leading white space; [skip] counts the bytes still to
    drop of the character being removed. *)
Fixpoint lstrip_space (skip : nat) (s : string) : string :=
  match s with
  | EmptyString => EmptyString
  | String c s' =>
      match skip with
      | S k => lstrip_space k s'
      | 0 =>
          match space_width s with
          | S k => lstrip_space k s'
          | 0 => s
          end
      end
  end.

(** Dropping the trailing white space: what is left of the tail, with one
    more byte in front, is dropped when it is a white space character. *)
Fixpoint rstrip_space (s : string) : string :=
  match s with
  | EmptyString => EmptyString
  | String c s' =>
      let r := String c (rstrip_space s') in
      if is_space_encoding r then EmptyString else r
  end.

(** [s.strip()] *)
Definition strip_space (s : string) : string :=
  rstrip_space (lstrip_space 0 s).

(* ================================================================== *)
(** ** ai_service.py: AIService *)

(** The OpenAI client is not part of the repository.  A streamed completion
    is the chunks it delivers ([delta.content] of each, possibly [None])
    and, when it breaks (at [create] or between chunks), the exception
    raised after them; a plain completion is the [message.content] of its
    first choice or an exception.  Both depend on the messages sent. *)
Record ChatCompletionStream := {
  chunks : list (option string);
  failure : option exn
}.

Record AsyncOpenAI := {
  create_stream : list (string * string) -> ChatCompletionStream;
  create : list (string * string) -> Result (option string)
}.

Record AIService := { client : AsyncOpenAI }.

Definition system_prompt : string * string :=
  ("system",
   "You are Jarvis, an intelligent AI assistant created by SynthioLabs. You are helpful, knowledgeable, and friendly. 

Key traits:
- Provide accurate, helpful responses
- Be concise but thorough when needed
- Ask clarifying questions when context is unclear
- Maintain a professional yet approachable tone
- Focus on practical, actionable advice

You excel at programming, technology discussions, problem-solving, and general knowledge queries. Always strive to be helpful while being honest about your limitations.").

Definition _prepare_messages_for_openai (chat_messages : list MessageResponse)
  : list (string * string) :=
  system_prompt
  :: map (fun message => (MessageRole_value (m_role message), m_content message))
       chat_messages.

(** The chunks with content, in order ([if ... is not None: yield]). *)
Fixpoint delta_contents (cs : list (option string)) : list string :=
  match cs with
  | [] => []
  | Some c :: cs' => c :: delta_contents cs'
  | None :: cs' => delta_contents cs'
  end.

Definition technical_difficulties (e : exn) : string :=
  ("I apologize, but I'm experiencing some technical difficulties right now. Error: "
   ++ str e)%string.

(** The tokens the generator yields, in order.  The [except] clause turns a
    failure of the client into one more token, after which the generator
    ends normally: it never raises. *)
Definition generate_streaming_response (self : AIService)
    (chat_messages : list MessageResponse) (user_message : string)
  : list string :=
  let messages :=
    _prepare_messages_for_openai chat_messages ++ [("user", user_message)] in
  let stream := create_stream (client self) messages in
  delta_contents (chunks stream)
  ++ match failure stream with
     | Some e => [technical_difficulties e]
     | None => []
     end.

(** [s.strip(chars)] for ASCII [chars]: drop the leading and trailing
    characters satisfying [p]. *)
Fixpoint lstrip (p : ascii -> bool) (s : string) : string :=
  match s with
  | EmptyString => EmptyString
  | String c s' => if p c then lstrip p s' else s
  end.

Fixpoint rstrip (p : ascii -> bool) (s : string) : string :=
  match s with
  | EmptyString => EmptyString
  | String c s' =>
      match rstrip p s' with
      | EmptyString => if p c then EmptyString else String c EmptyString
      | r => String c r
      end
  end.

Definition strip (p : ascii -> bool) (s : string) : string :=
  rstrip p (lstrip p s).

Definition is_quote (c : ascii) : bool :=
  let n := nat_of_ascii c in (n =? 34) || (n =? 39).

Definition generate_chat_title (self : AIService) (first_message : string)
  : string :=
  match create (client self)
          [("system",
            "Generate a short, descriptive title (max 6 words) for a chat conversation based on the user's first message. Be concise and capture the main topic.");
           ("user", ("First message: " ++ first_message)%string)] with
  | Ok (Some content) =>
      let title := strip_space content in
      let title := strip is_quote title in
      match title with
      | EmptyString => "New Chat"
      | _ => title
      end
  | Ok None => "New Chat"      (* [None.strip()] raises, caught below *)
  | Raise _ => "New Chat"
  end.

(* ================================================================== *)
(** ** main.py *)

(** The generator and the background tasks a [StreamingResponse] carries.
    [generate_stream] closes over [assistant_message], [context_messages]
    and [message_data]; the only task ever added is
    [generate_and_update_title], kept with its two arguments. *)
Record StreamingResponse := {
  assistant_message : MessageResponse;
  context_messages : list MessageResponse;
  message_data : MessageCreate;
  background_tasks : list (nat * string)
}.

Definition token_chunk (token : string) (mid : nat) : StreamResponse :=
  {| type := "token"; content := token; message_id := Some mid |}.

Definition complete_chunk (mid : nat) : StreamResponse :=
  {| type := "complete"; content := ""; message_id := Some mid |}.

Definition error_chunk (e : exn) (mid : nat) : StreamResponse :=
  {| type := "error"; content := ("Error: " ++ str e)%string;
     message_id := Some mid |}.

Definition apology (e : exn) : string :=
  ("I apologize, but I encountered an error: " ++ str e)%string.

Section App.

(** The module-level singleton [ai_service]: [None] when no API key is
    configured. *)
Variable ai_service : option AIService.

Definition get_ai_service : Result AIService :=
  match ai_service with
  | None => Raise (ValueError "AI service not available - OpenAI API key not configured")
  | Some ai => Ok ai
  end.

(** The [async for token in ...] loop of [generate_stream]; returns the
    accumulated content. *)
Fixpoint stream_tokens (mid : nat) (tokens : list string)
    (accumulated_content : string) : M string :=
  match tokens with
  | [] => ret accumulated_content
  | token :: rest =>
      let accumulated_content := (accumulated_content ++ token)%string in
      yield (token_chunk token mid) ;;;
      (if len accumulated_content mod 50 =? 0
       then _ <- db.update_message_content mid accumulated_content (Some true) ;;
            ret tt
       else ret tt) ;;;
      stream_tokens mid rest accumulated_content
  end.

Definition generate_stream (assistant_message : MessageResponse)
    (context_messages : list MessageResponse) (message_data : MessageCreate)
  : M unit :=
  let mid := m_id assistant_message in
  try_except
    (ai <- lift get_ai_service ;;
     accumulated_content <-
       stream_tokens mid
         (generate_streaming_response ai context_messages
            (mc_content message_data)) "" ;;
     _ <- db.update_message_content mid accumulated_content (Some false) ;;
     yield (complete_chunk mid))
    (fun e =>
       yield (error_chunk e mid) ;;;
       _ <- db.update_message_content mid (apology e) (Some false) ;;
       ret tt).

Definition stream_message (chat_id : nat) (message_data : MessageCreate)
  : M StreamingResponse :=
  try_except
    (chat <- db.get_chat chat_id DEMO_USER_ID ;;
     match chat with
     | None => raise (HTTPException 404 "Chat not found")
     | Some _ =>
         _ <- db.create_message chat_id USER (mc_content message_data) false ;;
         assistant_message <- db.create_message chat_id ASSISTANT "" true ;;
         existing_messages <- db.get_messages chat_id ;;
         let context_messages :=
           filter (fun msg => negb (m_id msg =? m_id assistant_message))
             existing_messages in
         ret {| assistant_message := assistant_message;
                context_messages := context_messages;
                message_data := message_data;
                background_tasks :=
                  if List.length context_messages =? 1
                  then [(chat_id, mc_content message_data)]
                  else [] |}
     end)
    (fun e =>
       match e with
       | HTTPException _ _ => raise e
       | _ => raise (HTTPException 500
                       ("Failed to start streaming: " ++ str e)%string)
       end).

(** Running the body of a streaming response to its end. *)
Definition run_stream (r : StreamingResponse) : M unit :=
  generate_stream (assistant_message r) (context_messages r) (message_data r).

Definition generate_and_update_title (chat_id : nat) (first_message : string)
  : M unit :=
  try_except
    (ai <- lift get_ai_service ;;
     let title := generate_chat_title ai first_message in
     _ <- db.update_chat_title chat_id title ;;
     ret tt)
    (fun _ => ret tt).

End App.

(* ================================================================== *)
(** ** The FastAPI boundary

    FastAPI validates the request body against [MessageCreate] before the
    endpoint runs and raises [RequestValidationError] when it does not fit.
    An exception leaving an endpoint is answered by the handler registered
    for the first class of its method resolution order that has one.  The
    framework registers handlers for [HTTPException] and
    [RequestValidationError]; main.py adds those for [ValueError] and
    [Exception]. *)

Inductive Response :=
| JSONResponse (status_code : nat) (detail : string)
| Streaming (r : StreamingResponse).

(** [content: str = Field(..., min_length=1)]: at least one character,
    which for an encoding is at least one byte. *)
Definition MessageCreate_validate (content : string) : Result MessageCreate :=
  if 1 <=? String.length content
  then Ok {| mc_content := content |}
  else Raise (RequestValidationError
                "String should have at least 1 character").

Inductive ExcClass :=
| cls_HTTPException
| cls_RequestValidationError
| cls_ValueError
| cls_APIError
| cls_OpenAIError
| cls_Exception.

Definition ExcClass_eqb (a b : ExcClass) : bool :=
  match a, b with
  | cls_HTTPException, cls_HTTPException
  | cls_RequestValidationError, cls_RequestValidationError
  | cls_ValueError, cls_ValueError
  | cls_APIError, cls_APIError
  | cls_OpenAIError, cls_OpenAIError
  | cls_Exception, cls_Exception => true
  | _, _ => false
  end.

(** The classes of an exception, most specific first.  With pydantic 1
    [RequestValidationError] descends from [ValueError]; that lineage is
    kept here (later versions drop it). *)
Definition mro (e : exn) : list ExcClass :=
  match e with
  | HTTPException _ _ => [cls_HTTPException; cls_Exception]
  | RequestValidationError _ =>
      [cls_RequestValidationError; cls_ValueError; cls_Exception]
  | ValueError _ => [cls_ValueError; cls_Exception]
  | APIError _ => [cls_APIError; cls_Exception]
  | OpenAIError _ => [cls_OpenAIError; cls_Exception]
  | Exception _ => [cls_Exception]
  end.

Definition http_exception_handler (exc : exn) : Response :=
  match exc with
  | HTTPException status_code detail => JSONResponse status_code detail
  | _ => JSONResponse 500 "Internal Server Error"
  end.

Definition request_validation_exception_handler (exc : exn) : Response :=
  JSONResponse 422 (str exc).

Definition value_error_handler (exc : exn) : Response :=
  JSONResponse 400 (str exc).

Definition general_exception_handler (exc : exn) : Response :=
  JSONResponse 500 "Internal server error".

Definition exception_handlers : list (ExcClass * (exn -> Response)) :=
  [ (cls_HTTPException, http_exception_handler);
    (cls_RequestValidationError, request_validation_exception_handler);
    (cls_ValueError, value_error_handler);
    (cls_Exception, general_exception_handler) ].

Fixpoint registered (c : ExcClass)
    (hs : list (ExcClass * (exn -> Response))) : option (exn -> Response) :=
  match hs with
  | [] => None
  | (c', h) :: hs' => if ExcClass_eqb c c' then Some h else registered c hs'
  end.

Fixpoint lookup_handler (classes : list ExcClass) : exn -> Response :=
  match classes with
  | [] => general_exception_handler
  | c :: cs =>
      match registered c exception_handlers with
      | Some h => h
      | None => lookup_handler cs
      end
  end.

Definition handle_exception (exc : exn) : Response :=
  lookup_handler (mro exc) exc.

(** [POST /api/chats/{chat_id}/stream] with body [{"content": content}]. *)
Definition post_stream (chat_id : nat) (content : string)
  : Store -> Response * Store * list Obs :=
  fun w =>
    match MessageCreate_validate content with
    | Raise e => (handle_exception e, w, [])
    | Ok message_data =>
        match stream_message chat_id message_data w with
        | (Ok r, w', t) => (Streaming r, w', t)
        | (Raise e, w', t) => (handle_exception e, w', t)
        end
    end.

(* ================================================================== *)
(** ** Vocabulary of the statements *)

(** The store answers every coming call. *)
Definition healthy (w : Store) : bool :=
  forallb (fun f => match f with None => true | Some _ => false end)
    (faults w).

(** The rows [get_chat] selects: the chats of the demo user with this id. *)
Definition owned (chat_id : nat) (c : ChatResponse) : bool :=
  (c_id c =? chat_id) && String.eqb (c_user_id c) DEMO_USER_ID.

(** The conversation exists: the table holds one row for it (identifiers
    are unique). *)
Definition chat_exists (chat_id : nat) (w : Store) : Prop :=
  exists row, filter (owned chat_id) (chats w) = [row].

(** The conversation does not exist: no chat of the demo user has the id. *)
Definition chat_absent (chat_id : nat) (w : Store) : Prop :=
  forall c, In c (chats w) -> owned chat_id c = false.

(** Identifiers handed out so far lie below the next one. *)
Definition fresh_ids (w : Store) : Prop :=
  Forall (fun m => m_id m < next_id w) (messages w).

(** A conversation owns a message. *)
Definition has_messages (ms : list MessageResponse) (c : ChatResponse)
  : bool :=
  0 <? List.length (filter (fun m => m_chat_id m =? c_id c) ms).

Definition terminal (c : StreamResponse) : bool :=
  String.eqb (type c) "complete" || String.eqb (type c) "error".

(** ["".join(tokens)] *)
Definition join (tokens : list string) : string :=
  fold_right String.append "" tokens.

(** The message row [mid] as persisted in a store. *)
Definition persisted (mid : nat) (w : Store) : option MessageResponse :=
  find (fun m => m_id m =? mid) (messages w).

(** The successive values of [accumulated_content], one per token. *)
Fixpoint accumulations (acc : string) (tokens : list string) : list string :=
  match tokens with
  | [] => []
  | token :: rest =>
      (acc ++ token)%string :: accumulations (acc ++ token)%string rest
  end.

(** The store after the next outcome has been consumed. *)
Definition pop (w : Store) : Store :=
  match faults w with
  | [] => w
  | _ :: fs => Supabase.with_faults fs w
  end.

Definition has_row (mid : nat) (w : Store) : Prop :=
  exists m, In m (messages w) /\ m_id m = mid.

Definition hit (mid : nat) (m : MessageResponse) : bool := m_id m =? mid.

Definition token_chunks (mid : nat) (tokens : list string)
  : list StreamResponse :=
  map (fun token => token_chunk token mid) tokens.

(** The checkpoints of a run on an available store: one write, flagged as
    still streaming, for each accumulated value whose length is a multiple
    of 50. *)
Definition checkpoints (mid : nat) (acc : string) (tokens : list string)
  : list (Stmt * bool) :=
  map (fun a => (UpdateMessage mid a (Some true), true))
    (filter (fun a => len a mod 50 =? 0) (accumulations acc tokens)).

(** The tokens [generate_stream] iterates over; none when the AI service is
    not configured ([get_ai_service] raises before the loop). *)
Definition source_tokens (ai_service : option AIService)
    (context_messages : list MessageResponse) (message_data : MessageCreate)
  : list string :=
  match ai_service with
  | Some ai =>
      generate_streaming_response ai context_messages (mc_content message_data)
  | None => []
  end.

(** The rows [stream_message] inserts. *)
Definition new_message (chat_id : nat) (role : MessageRole)
    (content : string) (is_streaming : bool) (w : Store) : MessageResponse :=
  {| m_id := next_id w; m_chat_id := chat_id; m_role := role;
     m_content := content; m_created_at := now w; m_updated_at := now w;
     m_is_streaming := is_streaming |}.

Definition inserted (row : MessageResponse) (w : Store) : Store :=
  {| chats := chats w; messages := messages w ++ [row];
     next_id := S (next_id w); now := S (now w); faults := faults (pop w) |}.

(** What the endpoint returns for an existing conversation on an available
    store, with the rows it has inserted by then. *)
Definition started (chat_id : nat) (md : MessageCreate) (w : Store)
  : StreamingResponse :=
  let user := new_message chat_id USER (mc_content md) false (pop w) in
  let w1 := inserted user (pop w) in
  let placeholder := new_message chat_id ASSISTANT "" true w1 in
  let w2 := inserted placeholder w1 in
  let context :=
    filter (fun msg => negb (m_id msg =? m_id placeholder))
      (Supabase.order m_created_at false
         (filter (fun m => m_chat_id m =? chat_id) (messages w2))) in
  {| assistant_message := placeholder;
     context_messages := context;
     message_data := md;
     background_tasks :=
       if List.length context =? 1 then [(chat_id, mc_content md)] else [] |}.

Definition started_store (chat_id : nat) (md : MessageCreate) (w : Store)
  : Store :=
  let user := new_message chat_id USER (mc_content md) false (pop w) in
  let w1 := inserted user (pop w) in
  pop (inserted (new_message chat_id ASSISTANT "" true w1) w1).

(** *** Sample data *)

Definition chat1 : ChatResponse :=
  {| c_id := 1; c_title := "New Chat"; c_created_at := 0; c_updated_at := 0;
     c_user_id := DEMO_USER_ID |}.

(** One empty conversation, on an available store. *)
Definition store1 : Store :=
  {| chats := [chat1]; messages := []; next_id := 2; now := 1; faults := [] |}.

(** An AI service whose streamed completion delivers [cs] and then ends, or
    breaks with [f]. *)
Definition scripted (cs : list (option string)) (f : option exn) : AIService :=
  {| client := {| create_stream := fun _ => {| chunks := cs; failure := f |};
                  create := fun _ => Ok (Some " 'Greeting' ") |} |}.

Definition hello : MessageCreate := {| mc_content := "hello" |}.

(** The completion client that breaks after the chunk "Par". *)
Definition breaks_after_Par : AIService :=
  scripted [Some "Par"] (Some (OpenAIError "boom")).

Definition newer_first (a b : ChatResponse) : Prop :=
  c_updated_at b <= c_updated_at a.

(** The window [get_chats] asks the store for. *)
Definition window (user_id : string) (w : Store) : list ChatResponse :=
  firstn 50
    (Supabase.order c_updated_at true
       (filter (fun c => String.eqb (c_user_id c) user_id) (chats w))).

(** Three conversations, the most recently updated one empty. *)
Definition store3 : Store :=
  {| chats :=
       [ {| c_id := 1; c_title := "A"; c_created_at := 1; c_updated_at := 5;
            c_user_id := DEMO_USER_ID |};
         {| c_id := 2; c_title := "B"; c_created_at := 2; c_updated_at := 9;
            c_user_id := DEMO_USER_ID |};
         {| c_id := 3; c_title := "C"; c_created_at := 3; c_updated_at := 7;
            c_user_id := DEMO_USER_ID |} ];
     messages :=
       [ {| m_id := 4; m_chat_id := 1; m_role := USER; m_content := "a";
            m_created_at := 4; m_updated_at := 4; m_is_streaming := false |};
         {| m_id := 5; m_chat_id := 3; m_role := USER; m_content := "c";
            m_created_at := 6; m_updated_at := 6; m_is_streaming := false |} ];
     next_id := 6; now := 10; faults := [None] |}.

(** Fifty-one conversations: the least recently updated one owns the only
    message, the fifty others are empty. *)
Definition crowded : Store :=
  {| chats :=
       {| c_id := 0; c_title := "old"; c_created_at := 0; c_updated_at := 0;
          c_user_id := DEMO_USER_ID |}
       :: map (fun i => {| c_id := i; c_title := "New Chat";
                           c_created_at := i; c_updated_at := i;
                           c_user_id := DEMO_USER_ID |})
            (seq 1 50);
     messages :=
       [ {| m_id := 51; m_chat_id := 0; m_role := USER; m_content := "hi";
            m_created_at := 0; m_updated_at := 0; m_is_streaming := false |} ];
     next_id := 52; now := 51; faults := [] |}.

(** The store holding [chat1] is unreachable at the next call. *)
Definition store_down : Store :=
  {| chats := [chat1]; messages := []; next_id := 2; now := 1;
     faults := [Some "connection refused"] |}.

(** An available store without any conversation. *)
Definition store_empty : Store :=
  {| chats := []; messages := []; next_id := 2; now := 1; faults := [] |}.

(* ================================================================== *)
(** ** main.py: the chat and message endpoints *)

(** [ChatCreate]: the request body of the create endpoint. *)
Record ChatCreate := { cc_title : option string }.

Record ChatWithMessages := {
  cw_id : nat;
  cw_title : string;
  cw_created_at : nat;
  cw_updated_at : nat;
  cw_user_id : string;
  cw_messages : list MessageResponse
}.

(** [x or default] on an optional string: [None] and the empty string are
    falsy. *)
Definition or_default (x : option string) (default : string) : string :=
  match x with
  | Some (String c s) => String c s
  | _ => default
  end.

Module app.

(** [GET /api/chats] *)
Definition get_chats : M (list ChatResponse) :=
  try_except
    (db.get_chats DEMO_USER_ID)
    (fun e =>
       raise (HTTPException 500 ("Failed to fetch chats: " ++ str e)%string)).

(** [POST /api/chats] *)
Definition create_chat (chat_data : ChatCreate) : M ChatResponse :=
  try_except
    (db.create_chat (or_default (cc_title chat_data) "New Chat") DEMO_USER_ID)
    (fun e =>
       raise (HTTPException 500 ("Failed to create chat: " ++ str e)%string)).

(** [GET /api/chats/{chat_id}] *)
Definition get_chat_with_messages (chat_id : nat) : M ChatWithMessages :=
  try_except
    (chat <- db.get_chat chat_id DEMO_USER_ID ;;
     match chat with
     | None => raise (HTTPException 404 "Chat not found")
     | Some chat =>
         messages <- db.get_messages chat_id ;;
         ret {| cw_id := c_id chat; cw_title := c_title chat;
                cw_created_at := c_created_at chat;
                cw_updated_at := c_updated_at chat;
                cw_user_id := c_user_id chat;
                cw_messages := messages |}
     end)
    (fun e =>
       match e with
       | HTTPException _ _ => raise e
       | _ => raise (HTTPException 500
                       ("Failed to fetch chat: " ++ str e)%string)
       end).

(** [DELETE /api/chats/{chat_id}]; the answer is the "message" of the
    returned object. *)
Definition delete_chat (chat_id : nat) : M string :=
  try_except
    (success <- db.delete_chat chat_id DEMO_USER_ID ;;
     if negb success
     then raise (HTTPException 404 "Chat not found")
     else ret "Chat deleted successfully")
    (fun e =>
       match e with
       | HTTPException _ _ => raise e
       | _ => raise (HTTPException 500
                       ("Failed to delete chat: " ++ str e)%string)
       end).

(** [GET /api/chats/{chat_id}/messages] *)
Definition get_messages (chat_id : nat) : M (list MessageResponse) :=
  try_except
    (chat <- db.get_chat chat_id DEMO_USER_ID ;;
     match chat with
     | None => raise (HTTPException 404 "Chat not found")
     | Some _ =>
         messages <- db.get_messages chat_id ;;
         ret messages
     end)
    (fun e =>
       match e with
       | HTTPException _ _ => raise e
       | _ => raise (HTTPException 500
                       ("Failed to fetch messages: " ++ str e)%string)
       end).

End app.

(* ================================================================== *)
(** ** Vocabulary of the further statements *)

Definition first_char (s : string) : option ascii :=
  match s with
  | EmptyString => None
  | String c _ => Some c
  end.

Fixpoint last_char (s : string) : option ascii :=
  match s with
  | EmptyString => None
  | String c EmptyString => Some c
  | String _ s' => last_char s'
  end.

(** The two messages [generate_chat_title] sends. *)
Definition title_request (first_message : string) : list (string * string) :=
  [("system",
    "Generate a short, descriptive title (max 6 words) for a chat conversation based on the user's first message. Be concise and capture the main topic.");
   ("user", ("First message: " ++ first_message)%string)].

(** The messages [generate_streaming_response] sends. *)
Definition completion_request (chat_messages : list MessageResponse)
    (user_message : string) : list (string * string) :=
  _prepare_messages_for_openai chat_messages ++ [("user", user_message)].

(** Between two states of the messages table: the same rows in the same
    places, none changed but (possibly) in content, flag and update time,
    and only where the identifier is [mid]. *)
Definition touches_only (mid : nat) (before after : list MessageResponse)
  : Prop :=
  Forall2 (fun m m' =>
             m_id m' = m_id m
             /\ m_chat_id m' = m_chat_id m
             /\ m_role m' = m_role m
             /\ m_created_at m' = m_created_at m
             /\ (m_id m <> mid -> m' = m))
    before after.

(** The identifiers of the conversations lie below the next one, and every
    message belongs to a conversation numbered below it. *)
Definition fresh_chat_ids (w : Store) : Prop :=
  Forall (fun c => c_id c < next_id w) (chats w).

Definition linked (w : Store) : Prop :=
  Forall (fun m => m_chat_id m < next_id w) (messages w).

(** Two states of the store with the same tables and the same next
    identifier. *)
Definition same_tables (w w' : Store) : Prop :=
  chats w' = chats w /\ messages w' = messages w /\ next_id w' = next_id w.

(** The exceptions the endpoints raise on purpose. *)
Definition http_error (e : exn) : Prop :=
  exists status detail,
    e = HTTPException status detail /\ (status = 404 \/ status = 500).

Definition oldest_first (a b : MessageResponse) : Prop :=
  m_created_at a <= m_created_at b.

(** The store holding [chat1] and two of its messages, the later one
    listed first. *)
Definition store2 : Store :=
  {| chats := [chat1];
     messages :=
       [ {| m_id := 3; m_chat_id := 1; m_role := ASSISTANT; m_content := "b";
            m_created_at := 5; m_updated_at := 5; m_is_streaming := false |};
         {| m_id := 2; m_chat_id := 1; m_role := USER; m_content := "a";
            m_created_at := 4; m_updated_at := 4; m_is_streaming := false |} ];
     next_id := 4; now := 6; faults := [] |}.

(* ================================================================== *)
(** ** Strings *)

Lemma append_assoc (a b c : string) :
  ((a ++ b) ++ c)%string = (a ++ (b ++ c))%string.
Proof.
  induction a as [|x a IH]; simpl; [reflexivity | now rewrite IH].
Qed.

Lemma append_empty_r (a : string) : (a ++ "")%string = a.
Proof.
  induction a as [|x a IH]; simpl; [reflexivity | now rewrite IH].
Qed.

Lemma len_append (a b : string) : len (a ++ b) = len a + len b.
Proof.
  induction a as [|x a IH]; cbn [String.append len]; [reflexivity|].
  destruct (continuation x); now rewrite IH.
Qed.

(** Characters, not bytes, are counted; every white space character is one
    character. *)
Example len_counts_characters :
  len "hello" = 5 /\ len "é" = 1 /\ String.length "é" = 2
  /\ len "日本語" = 3
  /\ Forall (fun cp => len (utf8 cp) = 1) whitespace.
Proof. repeat split; vm_compute; repeat constructor. Qed.

(** White space is removed on both sides, no-break space (U+00A0), next
    line (U+0085) and ideographic space (U+3000) included, and kept
    inside. *)
Example strip_space_examples :
  strip_space "  a  b  " = "a  b"
  /\ strip_space (utf8 160 ++ "Plan") = "Plan"
  /\ strip_space (utf8 133 ++ " é Plan " ++ utf8 12288) = "é Plan"
  /\ strip_space (utf8 160) = "".
Proof. repeat split; vm_compute; reflexivity. Qed.

Lemma join_app (l1 l2 : list string) :
  join (l1 ++ l2) = (join l1 ++ join l2)%string.
Proof.
  induction l1 as [|x l1 IH]; simpl; [reflexivity|].
  now rewrite IH, append_assoc.
Qed.

(* ================================================================== *)
(** ** The store client *)

(** Case analysis on the next outcome of the store: no outcome scripted,
    a failure, or a success. *)
Ltac next_outcome w :=
  let msg := fresh "msg" in
  let fs := fresh "fs" in
  destruct (faults w) as [|[msg|] fs].

Lemma sent_app (t1 t2 : list Obs) : sent (t1 ++ t2) = sent t1 ++ sent t2.
Proof.
  induction t1 as [|[c|q ok] t1 IH]; simpl; [reflexivity | now rewrite IH | exact IH].
Qed.

Lemma calls_app (t1 t2 : list Obs) : calls (t1 ++ t2) = calls t1 ++ calls t2.
Proof.
  induction t1 as [|[c|q ok] t1 IH]; simpl; [reflexivity | exact IH | now rewrite IH].
Qed.

Lemma pop_chats w : chats (pop w) = chats w.
Proof. unfold pop; destruct (faults w); reflexivity. Qed.

Lemma pop_messages w : messages (pop w) = messages w.
Proof. unfold pop; destruct (faults w); reflexivity. Qed.

Lemma pop_next_id w : next_id (pop w) = next_id w.
Proof. unfold pop; destruct (faults w); reflexivity. Qed.

Lemma pop_now w : now (pop w) = now w.
Proof. unfold pop; destruct (faults w); reflexivity. Qed.

Lemma pop_healthy w : healthy w = true -> healthy (pop w) = true.
Proof.
  unfold healthy, pop; destruct (faults w) as [|f fs] eqn:E; simpl.
  - now rewrite E.
  - intros H; apply andb_true_iff in H; tauto.
Qed.

(** Every [execute()] either fails on the store's side or runs the query on
    the tables. *)
Lemma execute_unfold {A} (q : Stmt) (sem : Store -> Result A * Store) w :
  Supabase.execute q sem w =
  match faults w with
  | Some msg :: fs =>
      (Raise (APIError msg), Supabase.with_faults fs w, [Exec q false])
  | _ => (fst (sem (pop w)), snd (sem (pop w)),
          [Exec q (Supabase.is_ok (fst (sem (pop w))))])
  end.
Proof.
  unfold Supabase.execute, pop.
  next_outcome w; try reflexivity;
    match goal with |- context [sem ?s] => destruct (sem s) end; reflexivity.
Qed.

Lemma execute_healthy {A} (q : Stmt) (sem : Store -> Result A * Store) w :
  healthy w = true ->
  Supabase.execute q sem w =
  (fst (sem (pop w)), snd (sem (pop w)),
   [Exec q (Supabase.is_ok (fst (sem (pop w))))]).
Proof.
  intros H. rewrite execute_unfold.
  unfold healthy in H. next_outcome w; simpl in H;
    [reflexivity | discriminate | reflexivity].
Qed.

Lemma execute_fault {A} (q : Stmt) (sem : Store -> Result A * Store) w msg fs :
  faults w = Some msg :: fs ->
  Supabase.execute q sem w =
  (Raise (APIError msg), Supabase.with_faults fs w, [Exec q false]).
Proof. intros H. rewrite execute_unfold, H. reflexivity. Qed.

(** [except Exception as e: ...; raise] changes nothing. *)
Lemma try_reraise {A} (m : M A) w : try_except m (fun e => raise e) w = m w.
Proof.
  unfold try_except, raise. destruct (m w) as [[[a|e] w1] t1]; [reflexivity|].
  now rewrite app_nil_r.
Qed.

(* ------------------------------------------------------------------ *)
(** *** update_message_content *)

Lemma filter_hit_nonempty mid (l : list MessageResponse) :
  (exists m, In m l /\ m_id m = mid) ->
  exists m l', filter (hit mid) l = m :: l'.
Proof.
  intros [m [Hin Hid]].
  destruct (filter (hit mid) l) as [|m' l'] eqn:E; [|eauto].
  assert (In m (filter (hit mid) l)) as H.
  { apply filter_In. split; [assumption|]. unfold hit. now apply Nat.eqb_eq. }
  rewrite E in H. destruct H.
Qed.

Lemma update_message_content_obs mid c s w :
  match db.update_message_content mid c s w with
  | (Ok _, _, t) => t = [Exec (UpdateMessage mid c s) true]
  | (Raise _, _, t) => exists ok, t = [Exec (UpdateMessage mid c s) ok]
  end.
Proof.
  unfold db.update_message_content. rewrite try_reraise.
  unfold bind, Supabase.messages_update. rewrite execute_unfold.
  next_outcome w; cbn [fst snd Supabase.is_ok];
    try (eexists; reflexivity);
    match goal with
    | |- context [map ?f ?l] => destruct (map f l)
    end; cbn; try reflexivity; eexists; reflexivity.
Qed.

Lemma update_message_content_healthy mid c s w :
  healthy w = true -> has_row mid w ->
  exists row w',
    db.update_message_content mid c s w
    = (Ok row, w', [Exec (UpdateMessage mid c s) true])
    /\ healthy w' = true
    /\ chats w' = chats w
    /\ next_id w' = next_id w
    /\ messages w'
       = Supabase.update_rows (hit mid) (Supabase.set_message c s) (messages w).
Proof.
  intros Hh [m [Hin Hid]].
  unfold db.update_message_content. rewrite try_reraise.
  unfold bind, Supabase.messages_update. rewrite (execute_healthy _ _ _ Hh).
  cbn [fst snd Supabase.is_ok].
  destruct (filter_hit_nonempty mid (messages (pop w))) as [m0 [l' E]].
  { rewrite pop_messages. eauto. }
  unfold hit in E. rewrite E. cbn [map ret].
  eexists; eexists; split; [reflexivity|].
  cbn [chats next_id messages healthy faults].
  rewrite pop_chats, pop_next_id, pop_messages.
  repeat split; try reflexivity. apply (pop_healthy _ Hh).
Qed.

Lemma update_rows_has_row mid f (l : list MessageResponse) :
  (forall m, m_id (f m) = m_id m) ->
  (exists m, In m l /\ m_id m = mid) ->
  exists m, In m (Supabase.update_rows (hit mid) f l) /\ m_id m = mid.
Proof.
  intros Hf [m [Hin Hid]]. unfold Supabase.update_rows.
  exists (if hit mid m then f m else m). split.
  - apply in_map_iff. exists m. split; [reflexivity | assumption].
  - destruct (hit mid m); [rewrite Hf|]; assumption.
Qed.

Lemma find_update_rows mid f (l : list MessageResponse) :
  (forall m, m_id (f m) = m_id m) ->
  (exists m, In m l /\ m_id m = mid) ->
  exists m0, m_id m0 = mid
    /\ find (fun m => m_id m =? mid) (Supabase.update_rows (hit mid) f l)
       = Some (f m0).
Proof.
  intros Hf [m [Hin Hid]]. induction l as [|x l IH]; [destruct Hin|].
  simpl. destruct (hit mid x) eqn:E; unfold hit in E.
  - rewrite Hf, E. exists x. split; [now apply Nat.eqb_eq | reflexivity].
  - rewrite E. destruct Hin as [->|Hin].
    + apply Nat.eqb_neq in E. contradiction.
    + apply IH, Hin.
Qed.

(* ================================================================== *)
(** ** The token loop of generate_stream *)

(** One iteration of the loop. *)
Lemma stream_tokens_cons mid token rest acc w :
  stream_tokens mid (token :: rest) acc w =
  if len (acc ++ token) mod 50 =? 0
  then match db.update_message_content mid (acc ++ token)%string (Some true) w with
       | (Ok _, w1, t1) =>
           match stream_tokens mid rest (acc ++ token)%string w1 with
           | (r, w2, t2) => (r, w2, Sent (token_chunk token mid) :: t1 ++ t2)
           end
       | (Raise e, w1, t1) => (Raise e, w1, Sent (token_chunk token mid) :: t1)
       end
  else match stream_tokens mid rest (acc ++ token)%string w with
       | (r, w2, t2) => (r, w2, Sent (token_chunk token mid) :: t2)
       end.
Proof.
  cbn [stream_tokens]. unfold bind at 1. unfold yield at 1.
  destruct (len (acc ++ token) mod 50 =? 0).
  - unfold bind.
    destruct (db.update_message_content mid (acc ++ token)%string (Some true) w)
      as [[[row|e] w1] t1]; cbn [ret].
    + destruct (stream_tokens mid rest (acc ++ token)%string w1) as [[r w2] t2].
      now rewrite app_nil_r.
    + reflexivity.
  - unfold bind, ret.
    destruct (stream_tokens mid rest (acc ++ token)%string w) as [[r w2] t2].
    reflexivity.
Qed.

(** Whatever the store does, the loop sends the tokens in order, all of
    them when it ends normally and the first [k] of them when a checkpoint
    raises. *)
Lemma stream_tokens_sent mid tokens : forall acc w,
  match stream_tokens mid tokens acc w with
  | (Ok acc', _, t) =>
      acc' = (acc ++ join tokens)%string
      /\ sent t = token_chunks mid tokens
  | (Raise _, _, t) =>
      exists k, sent t = token_chunks mid (firstn k tokens)
  end.
Proof.
  induction tokens as [|token rest IH]; intros acc w.
  - cbn. now rewrite append_empty_r.
  - rewrite stream_tokens_cons.
    destruct (len (acc ++ token) mod 50 =? 0).
    + pose proof (update_message_content_obs mid (acc ++ token)%string
                    (Some true) w) as Ht.
      destruct (db.update_message_content mid (acc ++ token)%string
                  (Some true) w) as [[[row|e] w1] t1];
        [|destruct Ht as [ok Ht]]; subst t1.
      * specialize (IH (acc ++ token)%string w1).
        destruct (stream_tokens mid rest (acc ++ token)%string w1)
          as [[[acc'|e] w2] t2].
        -- destruct IH as [-> Hs]. split.
           ++ cbn [join fold_right]. now rewrite append_assoc.
           ++ cbn. now rewrite Hs.
        -- destruct IH as [k Hs]. exists (S k). cbn. now rewrite Hs.
      * exists 1. reflexivity.
    + specialize (IH (acc ++ token)%string w).
      destruct (stream_tokens mid rest (acc ++ token)%string w)
        as [[[acc'|e] w2] t2].
      * destruct IH as [-> Hs]. split.
        -- cbn [join fold_right]. now rewrite append_assoc.
        -- cbn. now rewrite Hs.
      * destruct IH as [k Hs]. exists (S k). cbn. now rewrite Hs.
Qed.

Lemma stream_tokens_healthy mid tokens : forall acc w,
  healthy w = true -> has_row mid w ->
  exists w' t,
    stream_tokens mid tokens acc w = (Ok (acc ++ join tokens)%string, w', t)
    /\ healthy w' = true /\ has_row mid w'
    /\ sent t = token_chunks mid tokens
    /\ calls t = checkpoints mid acc tokens
    /\ chats w' = chats w.
Proof.
  induction tokens as [|token rest IH]; intros acc w Hh Hrow.
  - exists w, []. cbn. rewrite append_empty_r. auto 6.
  - rewrite stream_tokens_cons. unfold checkpoints. cbn [accumulations filter].
    destruct (len (acc ++ token) mod 50 =? 0).
    + destruct (update_message_content_healthy mid (acc ++ token)%string
                  (Some true) w Hh Hrow)
        as [row [w1 [E [Hh1 [Hch1 [_ Hm]]]]]].
      rewrite E.
      assert (has_row mid w1) as Hrow1.
      { unfold has_row. rewrite Hm. apply update_rows_has_row; [|exact Hrow].
        reflexivity. }
      destruct (IH (acc ++ token)%string w1 Hh1 Hrow1)
        as [w' [t [E' [Hh' [Hrow' [Hs [Hc Hch]]]]]]].
      rewrite E'. exists w'. eexists. split.
      { cbn [join fold_right]. rewrite append_assoc. reflexivity. }
      repeat split; try assumption; try congruence;
        cbn; (now rewrite Hs) || (now rewrite Hc).
    + destruct (IH (acc ++ token)%string w Hh Hrow)
        as [w' [t [E' [Hh' [Hrow' [Hs [Hc Hch]]]]]]].
      rewrite E'. exists w'. eexists. split.
      { cbn [join fold_right]. rewrite append_assoc. reflexivity. }
      repeat split; try assumption; try congruence;
        cbn; (now rewrite Hs) || (now rewrite Hc).
Qed.

(* ================================================================== *)
(** ** generate_stream *)

(** The [except] clause: the error chunk, then the write of the apology. *)
Lemma except_clause mid e w :
  exists r w' ok,
    (yield (error_chunk e mid) ;;;
     _ <- db.update_message_content mid (apology e) (Some false) ;;
     ret tt) w
    = (r, w', [Sent (error_chunk e mid);
               Exec (UpdateMessage mid (apology e) (Some false)) ok]).
Proof.
  unfold bind at 1. unfold yield at 1. unfold bind, ret.
  pose proof (update_message_content_obs mid (apology e) (Some false) w) as H.
  destruct (db.update_message_content mid (apology e) (Some false) w)
    as [[[row|e'] w1] t1].
  - subst t1. do 3 eexists. reflexivity.
  - destruct H as [ok ->]. do 3 eexists. reflexivity.
Qed.

(** The generator, one step at a time. *)
Lemma generate_stream_unfold ai_service am ctx md w :
  let mid := m_id am in
  let except := fun e =>
    yield (error_chunk e mid) ;;;
    _ <- db.update_message_content mid (apology e) (Some false) ;;
    ret tt in
  generate_stream ai_service am ctx md w =
  match ai_service with
  | None =>
      except (ValueError "AI service not available - OpenAI API key not configured") w
  | Some _ =>
      match stream_tokens mid (source_tokens ai_service ctx md) "" w with
      | (Ok acc, w1, t1) =>
          match db.update_message_content mid acc (Some false) w1 with
          | (Ok _, w2, t2) =>
              (Ok tt, w2, t1 ++ t2 ++ [Sent (complete_chunk mid)])
          | (Raise e, w2, t2) =>
              match except e w2 with
              | (r, w3, t3) => (r, w3, (t1 ++ t2) ++ t3)
              end
          end
      | (Raise e, w1, t1) =>
          match except e w1 with
          | (r, w3, t3) => (r, w3, t1 ++ t3)
          end
      end
  end.
Proof.
  intros mid except. unfold generate_stream. fold mid. fold except.
  unfold try_except, get_ai_service. unfold bind at 1. unfold lift.
  destruct ai_service as [ai|]; cbn [source_tokens].
  - unfold bind at 1.
    destruct (stream_tokens mid
                (generate_streaming_response ai ctx (mc_content md)) "" w)
      as [[[acc|e] w1] t1]; [|reflexivity].
    unfold bind at 1.
    destruct (db.update_message_content mid acc (Some false) w1)
      as [[[row|e] w2] t2]; unfold yield; reflexivity.
  - destruct (except _ w) as [[r w3] t3]. reflexivity.
Qed.

(** Every run of the generator, whatever the store and the completion
    client do, has one of two shapes: the tokens, the final write, the
    complete chunk; or some of the tokens (and possibly store calls), the
    error chunk, the write of the apology. *)
Lemma generate_stream_shape ai_service am ctx md w :
  let mid := m_id am in
  let tokens := source_tokens ai_service ctx md in
  let x := generate_stream ai_service am ctx md w in
  (exists t,
      result_of x = Ok tt
      /\ trace_of x
         = t ++ [Exec (UpdateMessage mid (join tokens) (Some false)) true;
                 Sent (complete_chunk mid)]
      /\ sent t = token_chunks mid tokens)
  \/ (exists e t ok k,
      trace_of x
      = t ++ [Sent (error_chunk e mid);
              Exec (UpdateMessage mid (apology e) (Some false)) ok]
      /\ sent t = token_chunks mid (firstn k tokens)).
Proof.
  intros mid tokens x. unfold x; clear x.
  rewrite generate_stream_unfold. fold mid. fold tokens.
  destruct ai_service as [ai|].
  - pose proof (stream_tokens_sent mid tokens "" w) as Hloop.
    destruct (stream_tokens mid tokens "" w) as [[[acc|e] w1] t1].
    + destruct Hloop as [-> Hs]. cbn [String.append].
      pose proof (update_message_content_obs mid (join tokens) (Some false) w1)
        as Hu.
      destruct (db.update_message_content mid (join tokens) (Some false) w1)
        as [[[row|e] w2] t2].
      * subst t2. left. exists t1. cbn. auto.
      * destruct Hu as [ok ->]. right.
        destruct (except_clause mid e w2) as [r [w3 [ok' E]]].
        rewrite E.
        exists e, (t1 ++ [Exec (UpdateMessage mid (join tokens) (Some false)) ok]),
          ok', (List.length tokens).
        unfold trace_of; cbn [snd]. split; [reflexivity|].
        rewrite sent_app, Hs, firstn_all. cbn. now rewrite app_nil_r.
    + destruct Hloop as [k Hs]. right.
      destruct (except_clause mid e w1) as [r [w3 [ok' E]]].
      rewrite E. exists e, t1, ok', k.
      unfold trace_of; cbn [snd]. auto.
  - right.
    destruct (except_clause mid
                (ValueError "AI service not available - OpenAI API key not configured")
                w) as [r [w3 [ok' E]]].
    rewrite E. eexists. exists [], ok', 0. split; reflexivity.
Qed.

(** On an available store with the placeholder in place and the AI service
    configured, the run ends normally. *)
Lemma generate_stream_healthy ai am ctx md w :
  let mid := m_id am in
  let tokens := generate_streaming_response ai ctx (mc_content md) in
  healthy w = true -> has_row mid w ->
  exists w' t m0,
    generate_stream (Some ai) am ctx md w
    = (Ok tt, w',
       t ++ [Exec (UpdateMessage mid (join tokens) (Some false)) true;
             Sent (complete_chunk mid)])
    /\ sent t = token_chunks mid tokens
    /\ calls t = checkpoints mid "" tokens
    /\ healthy w' = true
    /\ chats w' = chats w
    /\ persisted mid w'
       = Some (Supabase.set_message (join tokens) (Some false) m0).
Proof.
  intros mid tokens Hh Hrow. rewrite generate_stream_unfold.
  fold mid. cbn [source_tokens]. fold tokens.
  destruct (stream_tokens_healthy mid tokens "" w Hh Hrow)
    as [w1 [t1 [E1 [Hh1 [Hrow1 [Hs [Hc Hch1]]]]]]].
  rewrite E1. cbn [String.append].
  destruct (update_message_content_healthy mid (join tokens) (Some false)
              w1 Hh1 Hrow1) as [row [w2 [E2 [Hh2 [Hch [_ Hm]]]]]].
  rewrite E2.
  destruct (find_update_rows mid
              (Supabase.set_message (join tokens) (Some false))
              (messages w1)) as [m0 [_ Hf]]; [reflexivity | exact Hrow1 |].
  exists w2, t1, m0. repeat split; try assumption.
  - congruence.
  - unfold persisted. rewrite Hm. exact Hf.
Qed.

(* ================================================================== *)
(** ** The gateway on an available store, and on a failing one *)

Lemma get_chat_unfold chat_id user_id w :
  db.get_chat chat_id user_id w =
  match faults w with
  | Some msg :: fs =>
      (Ok None, Supabase.with_faults fs w,
       [Exec (SelectChat chat_id user_id) false])
  | _ =>
      match filter (fun c => (c_id c =? chat_id)
                             && String.eqb (c_user_id c) user_id)
              (chats w) with
      | [row] => (Ok (Some row), pop w, [Exec (SelectChat chat_id user_id) true])
      | _ => (Ok None, pop w, [Exec (SelectChat chat_id user_id) false])
      end
  end.
Proof.
  unfold db.get_chat, try_except, bind, Supabase.chats_select_single.
  rewrite execute_unfold.
  next_outcome w; try reflexivity;
    rewrite pop_chats;
    destruct (filter _ (chats w)) as [|row [|row' l]]; reflexivity.
Qed.

Lemma filter_owned_absent chat_id w :
  chat_absent chat_id w -> filter (owned chat_id) (chats w) = [].
Proof.
  unfold chat_absent. induction (chats w) as [|c l IH]; intros H.
  - reflexivity.
  - simpl. rewrite (H c (or_introl eq_refl)). apply IH.
    intros c' Hin. apply H. now right.
Qed.

Lemma get_chat_absent chat_id w :
  chat_absent chat_id w ->
  exists w',
    db.get_chat chat_id DEMO_USER_ID w
    = (Ok None, w', [Exec (SelectChat chat_id DEMO_USER_ID) false])
    /\ chats w' = chats w /\ messages w' = messages w.
Proof.
  intros Ha. rewrite get_chat_unfold.
  pose proof (filter_owned_absent chat_id w Ha) as Hf. unfold owned in Hf.
  rewrite Hf.
  next_outcome w; eexists; split;
    try reflexivity; rewrite ?pop_chats, ?pop_messages; auto.
Qed.

Lemma get_chat_healthy chat_id w row :
  healthy w = true ->
  filter (owned chat_id) (chats w) = [row] ->
  db.get_chat chat_id DEMO_USER_ID w
  = (Ok (Some row), pop w, [Exec (SelectChat chat_id DEMO_USER_ID) true]).
Proof.
  intros Hh Hf. rewrite get_chat_unfold. unfold owned in Hf. rewrite Hf.
  unfold healthy in Hh.
  next_outcome w; simpl in Hh; try reflexivity.
  discriminate.
Qed.

Lemma inserted_healthy row w : healthy w = true -> healthy (inserted row w) = true.
Proof. intros H. apply pop_healthy in H. exact H. Qed.

Lemma create_message_healthy chat_id role content is_streaming w :
  healthy w = true ->
  db.create_message chat_id role content is_streaming w
  = (Ok (new_message chat_id role content is_streaming w),
     inserted (new_message chat_id role content is_streaming w) w,
     [Exec (InsertMessage chat_id role content is_streaming) true]).
Proof.
  intros Hh. unfold db.create_message. rewrite try_reraise.
  unfold bind, Supabase.messages_insert. rewrite (execute_healthy _ _ _ Hh).
  cbn [fst snd Supabase.is_ok ret app].
  unfold new_message, inserted.
  rewrite pop_chats, pop_messages, pop_next_id, pop_now. reflexivity.
Qed.

Lemma get_messages_healthy chat_id w :
  healthy w = true ->
  db.get_messages chat_id w
  = (Ok (Supabase.order m_created_at false
           (filter (fun m => m_chat_id m =? chat_id) (messages w))),
     pop w, [Exec (SelectMessages chat_id) true]).
Proof.
  intros Hh. unfold db.get_messages. rewrite try_reraise.
  unfold Supabase.messages_select. rewrite (execute_healthy _ _ _ Hh).
  cbn [fst snd Supabase.is_ok]. now rewrite pop_messages.
Qed.

(* ================================================================== *)
(** ** stream_message *)

Lemma stream_message_healthy chat_id md w :
  healthy w = true -> chat_exists chat_id w ->
  stream_message chat_id md w
  = (Ok (started chat_id md w), started_store chat_id md w,
     [Exec (SelectChat chat_id DEMO_USER_ID) true;
      Exec (InsertMessage chat_id USER (mc_content md) false) true;
      Exec (InsertMessage chat_id ASSISTANT "" true) true;
      Exec (SelectMessages chat_id) true]).
Proof.
  intros Hh [row Hrow]. unfold stream_message, try_except.
  unfold bind at 1. rewrite (get_chat_healthy _ _ _ Hh Hrow).
  pose proof (pop_healthy _ Hh) as Hh0.
  unfold bind at 1. rewrite (create_message_healthy _ _ _ _ _ Hh0).
  pose proof (inserted_healthy
                (new_message chat_id USER (mc_content md) false (pop w))
                _ Hh0) as Hh1.
  unfold bind at 1. rewrite (create_message_healthy _ _ _ _ _ Hh1).
  pose proof (inserted_healthy
                (new_message chat_id ASSISTANT "" true
                   (inserted (new_message chat_id USER (mc_content md) false
                                (pop w)) (pop w)))
                _ Hh1) as Hh2.
  unfold bind at 1. rewrite (get_messages_healthy _ _ Hh2).
  reflexivity.
Qed.

Lemma started_store_healthy chat_id md w :
  healthy w = true -> healthy (started_store chat_id md w) = true.
Proof.
  intros Hh. unfold started_store.
  apply pop_healthy, inserted_healthy, inserted_healthy, pop_healthy, Hh.
Qed.

Lemma started_store_messages chat_id md w :
  messages (started_store chat_id md w)
  = messages w
    ++ [new_message chat_id USER (mc_content md) false (pop w);
        new_message chat_id ASSISTANT "" true
          (inserted (new_message chat_id USER (mc_content md) false (pop w))
             (pop w))].
Proof.
  unfold started_store. rewrite pop_messages. cbn [inserted messages].
  rewrite pop_messages, <- app_assoc. reflexivity.
Qed.

Lemma started_has_row chat_id md w :
  has_row (m_id (assistant_message (started chat_id md w)))
    (started_store chat_id md w).
Proof.
  unfold has_row. rewrite started_store_messages.
  eexists. split; [|reflexivity].
  apply in_or_app. right. right. left. reflexivity.
Qed.

Lemma token_chunks_not_terminal mid tokens :
  filter terminal (token_chunks mid tokens) = [].
Proof. induction tokens as [|tk l IH]; [reflexivity | exact IH]. Qed.

Lemma token_chunks_app mid l1 l2 :
  token_chunks mid (l1 ++ l2) = token_chunks mid l1 ++ token_chunks mid l2.
Proof. apply map_app. Qed.

(** [accumulations] lists the concatenation of the first [k] tokens, for
    [k] from 1 to the number of tokens. *)
Lemma accumulations_prefixes tokens : forall acc,
  accumulations acc tokens
  = map (fun k => (acc ++ join (firstn k tokens))%string)
      (seq 1 (List.length tokens)).
Proof.
  induction tokens as [|token rest IH]; intros acc; [reflexivity|].
  cbn [accumulations List.length seq map]. f_equal.
  - cbn. now rewrite append_empty_r.
  - rewrite IH, <- (seq_shift (List.length rest) 1), map_map.
    apply map_ext. intros k.
    cbn [firstn join fold_right]. now rewrite append_assoc.
Qed.

(* ================================================================== *)
(** ** The stream endpoint *)

Lemma adapter_normal ai ctx content :
  failure (create_stream (client ai)
             (_prepare_messages_for_openai ctx ++ [("user", content)])) = None ->
  generate_streaming_response ai ctx content
  = delta_contents
      (chunks (create_stream (client ai)
                 (_prepare_messages_for_openai ctx ++ [("user", content)]))).
Proof.
  intros H. unfold generate_streaming_response. rewrite H. apply app_nil_r.
Qed.

Lemma adapter_failure ai ctx content e :
  failure (create_stream (client ai)
             (_prepare_messages_for_openai ctx ++ [("user", content)])) = Some e ->
  generate_streaming_response ai ctx content
  = delta_contents
      (chunks (create_stream (client ai)
                 (_prepare_messages_for_openai ctx ++ [("user", content)])))
    ++ [technical_difficulties e].
Proof.
  intros H. unfold generate_streaming_response. now rewrite H.
Qed.

(** C3. On the normal path (conversation found, store available, AI service
    configured, completion ending normally after any number of chunks) the
    run ends with the write of the whole accumulated text with
    [is_streaming = false], immediately followed by the complete chunk; the
    chunks before it are the tokens in order, and the row then persisted
    holds exactly their concatenation. *)
Theorem normal_path_persists_concatenation ai chat_id md w :
  let r := started chat_id md w in
  let mid := m_id (assistant_message r) in
  let stream :=
    create_stream (client ai)
      (_prepare_messages_for_openai (context_messages r)
       ++ [("user", mc_content md)]) in
  let tokens := delta_contents (chunks stream) in
  healthy w = true -> chat_exists chat_id w -> failure stream = None ->
  exists w1 t0 w2 t m,
    stream_message chat_id md w = (Ok r, w1, t0)
    /\ run_stream (Some ai) r w1
       = (Ok tt, w2,
          t ++ [Exec (UpdateMessage mid (join tokens) (Some false)) true;
                Sent (complete_chunk mid)])
    /\ sent t = token_chunks mid tokens
    /\ persisted mid w2 = Some m
    /\ m_content m = join tokens
    /\ m_is_streaming m = false.
Proof.
  intros r mid stream tokens Hh Hex Hnormal.
  pose proof (stream_message_healthy chat_id md w Hh Hex) as E0.
  destruct (generate_stream_healthy ai (assistant_message r)
              (context_messages r) md (started_store chat_id md w)
              (started_store_healthy _ _ _ Hh) (started_has_row _ _ _))
    as [w2 [t [m0 [E [Hs [_ [_ [_ Hp]]]]]]]].
  rewrite (adapter_normal ai (context_messages r) (mc_content md) Hnormal)
    in E, Hs, Hp.
  exists (started_store chat_id md w). eexists. exists w2, t. eexists.
  split; [exact E0|]. split; [exact E|]. split; [exact Hs|].
  split; [exact Hp|]. split; reflexivity.
Qed.

Lemma normal_path_persists_concatenation_witness :
  healthy store1 = true /\ chat_exists 1 store1 /\
  exists w1 t0 w2 t m,
    stream_message 1 hello store1 = (Ok (started 1 hello store1), w1, t0)
    /\ run_stream (Some (scripted [Some "Hi"; Some " there"; Some "!"] None))
         (started 1 hello store1) w1
       = (Ok tt, w2,
          t ++ [Exec (UpdateMessage 3 "Hi there!" (Some false)) true;
                Sent (complete_chunk 3)])
    /\ sent t = token_chunks 3 ["Hi"; " there"; "!"]
    /\ persisted 3 w2 = Some m
    /\ m_content m = "Hi there!"
    /\ m_is_streaming m = false.
Proof.
  split; [reflexivity|]. split; [exists chat1; reflexivity|].
  apply (normal_path_persists_concatenation
           (scripted [Some "Hi"; Some " there"; Some "!"] None) 1 hello store1);
    [reflexivity | exists chat1; reflexivity | reflexivity].
Defined.

(** C1, as stated, fails: when the completion breaks after "Par" the client
    receives the token, one more token carrying the adapter's apology, and
    the complete chunk; no error chunk is sent. *)
Lemma completion_failure_sends_no_error_chunk :
  let r := started 1 hello store1 in
  let run := run_stream (Some breaks_after_Par) r (started_store 1 hello store1) in
  result_of (stream_message 1 hello store1) = Ok r
  /\ sent (trace_of run)
     = [token_chunk "Par" 3;
        token_chunk (technical_difficulties (OpenAIError "boom")) 3;
        complete_chunk 3]
  /\ ~ (exists err, type err = "error"
                    /\ sent (trace_of run) = [token_chunk "Par" 3; err]).
Proof.
  cbv zeta. split; [reflexivity|]. split; [reflexivity|].
  intros [err [_ H]]. vm_compute in H. discriminate H.
Qed.

(** C1, amended.  (1) When the completion client breaks with [e] after its
    chunks (conversation found, store available), the adapter turns the
    failure into one more token, the apology naming [e]: the client
    receives the tokens, that apology as a token, then the complete chunk;
    the final write, of the tokens' concatenation followed by the apology
    with [is_streaming = false], comes just before the complete chunk and
    is what stays persisted.  (2) Whatever the store and the client do, a
    run has one of two shapes: it ends with the final write and the
    complete chunk, or with an error chunk followed by the write of
    "I apologize, but I encountered an error: " and the error text (the
    accumulated tokens are not part of it) with [is_streaming = false],
    the chunks before the error chunk being tokens already sent. *)
Theorem completion_failure_becomes_a_token ai chat_id md w :
  let r := started chat_id md w in
  let mid := m_id (assistant_message r) in
  let stream :=
    create_stream (client ai)
      (_prepare_messages_for_openai (context_messages r)
       ++ [("user", mc_content md)]) in
  let tokens := delta_contents (chunks stream) in
  (forall e,
      healthy w = true -> chat_exists chat_id w -> failure stream = Some e ->
      exists w1 t0 w2 t m,
        stream_message chat_id md w = (Ok r, w1, t0)
        /\ run_stream (Some ai) r w1
           = (Ok tt, w2,
              t ++ [Exec (UpdateMessage mid
                            (join tokens ++ technical_difficulties e)%string
                            (Some false)) true;
                    Sent (complete_chunk mid)])
        /\ sent t
           = token_chunks mid tokens
             ++ [token_chunk (technical_difficulties e) mid]
        /\ persisted mid w2 = Some m
        /\ m_content m = (join tokens ++ technical_difficulties e)%string
        /\ m_is_streaming m = false)
  /\ (forall ai_service am ctx w1,
      let x := generate_stream ai_service am ctx md w1 in
      let all := source_tokens ai_service ctx md in
      (exists t,
          result_of x = Ok tt
          /\ trace_of x
             = t ++ [Exec (UpdateMessage (m_id am) (join all) (Some false)) true;
                     Sent (complete_chunk (m_id am))]
          /\ sent t = token_chunks (m_id am) all)
      \/ (exists err t ok k,
          trace_of x
          = t ++ [Sent (error_chunk err (m_id am));
                  Exec (UpdateMessage (m_id am)
                          ("I apologize, but I encountered an error: "
                           ++ str err)%string (Some false)) ok]
          /\ sent t = token_chunks (m_id am) (firstn k all))).
Proof.
  intros r mid stream tokens. split.
  - intros e Hh Hex Hfail.
    pose proof (stream_message_healthy chat_id md w Hh Hex) as E0.
    destruct (generate_stream_healthy ai (assistant_message r)
                (context_messages r) md (started_store chat_id md w)
                (started_store_healthy _ _ _ Hh) (started_has_row _ _ _))
      as [w2 [t [m0 [E [Hs [_ [_ [_ Hp]]]]]]]].
    rewrite (adapter_failure ai (context_messages r) (mc_content md) e Hfail)
      in E, Hs, Hp.
    rewrite join_app in E, Hp. cbn [join fold_right] in E, Hp.
    rewrite append_empty_r in E, Hp. rewrite token_chunks_app in Hs.
    exists (started_store chat_id md w). eexists. exists w2, t. eexists.
    split; [exact E0|]. split; [exact E|]. split; [exact Hs|].
    split; [exact Hp|]. split; reflexivity.
  - intros ai_service am ctx w1. apply generate_stream_shape.
Qed.

Lemma completion_failure_becomes_a_token_witness :
  healthy store1 = true /\ chat_exists 1 store1 /\
  exists w1 t0 w2 t m,
    stream_message 1 hello store1 = (Ok (started 1 hello store1), w1, t0)
    /\ run_stream (Some breaks_after_Par) (started 1 hello store1) w1
       = (Ok tt, w2,
          t ++ [Exec (UpdateMessage 3
                        ("Par" ++ technical_difficulties (OpenAIError "boom"))%string
                        (Some false)) true;
                Sent (complete_chunk 3)])
    /\ sent t
       = token_chunks 3 ["Par"]
         ++ [token_chunk (technical_difficulties (OpenAIError "boom")) 3]
    /\ persisted 3 w2 = Some m
    /\ m_content m = ("Par" ++ technical_difficulties (OpenAIError "boom"))%string
    /\ m_is_streaming m = false.
Proof.
  split; [reflexivity|]. split; [exists chat1; reflexivity|].
  apply (proj1 (completion_failure_becomes_a_token breaks_after_Par 1 hello
                  store1) (OpenAIError "boom"));
    [reflexivity | exists chat1; reflexivity | reflexivity].
Defined.

(** The second shape, on a run: the store fails at the first checkpoint,
    after a token of 50 characters; the error chunk follows that token and
    the row ends up holding the apology alone. *)
Example checkpoint_failure_run :
  let fifty := "01234567890123456789012345678901234567890123456789" in
  let r := started 1 hello store1 in
  let x := run_stream (Some (scripted [Some fifty; Some "more"] None)) r
             (Supabase.with_faults [Some "timeout"]
                (started_store 1 hello store1)) in
  trace_of x
  = [Sent (token_chunk fifty 3);
     Exec (UpdateMessage 3 fifty (Some true)) false;
     Sent (error_chunk (APIError "timeout") 3);
     Exec (UpdateMessage 3 "I apologize, but I encountered an error: timeout"
             (Some false)) true]
  /\ option_map m_content (persisted 3 (store_of x))
     = Some "I apologize, but I encountered an error: timeout"
  /\ option_map m_is_streaming (persisted 3 (store_of x)) = Some false.
Proof. cbv zeta. repeat split; vm_compute; reflexivity. Qed.

(** C6. On an available store holding the placeholder, the store calls of
    a run are: for each token, in order, a write of the accumulated text
    with [is_streaming = true] exactly when the accumulated length (in
    characters, [len]) after appending that token is a multiple of 50;
    then the one final write with [is_streaming = false].  A token that
    carries the length from 40 to 53 brings no checkpoint. *)
Theorem checkpoint_every_multiple_of_50 ai am ctx md w :
  let mid := m_id am in
  let tokens := generate_streaming_response ai ctx (mc_content md) in
  healthy w = true -> has_row mid w ->
  calls (trace_of (generate_stream (Some ai) am ctx md w))
  = map (fun a => (UpdateMessage mid a (Some true), true))
      (filter (fun a => len a mod 50 =? 0)
         (map (fun k => join (firstn k tokens))
            (seq 1 (List.length tokens))))
    ++ [(UpdateMessage mid (join tokens) (Some false), true)]
  /\ (forall t1 t2,
        tokens = [t1; t2] -> len t1 = 40 -> len t2 = 13 ->
        calls (trace_of (generate_stream (Some ai) am ctx md w))
        = [(UpdateMessage mid (t1 ++ t2)%string (Some false), true)]).
Proof.
  intros mid tokens Hh Hrow.
  destruct (generate_stream_healthy ai am ctx md w Hh Hrow)
    as [w2 [t [m0 [E [_ [Hc _]]]]]].
  fold mid tokens in E, Hc. rewrite E. unfold trace_of; cbn [snd].
  rewrite calls_app, Hc. unfold checkpoints.
  rewrite accumulations_prefixes. cbn [String.append calls].
  split; [reflexivity|].
  intros t1 t2 Ht L1 L2. rewrite Ht.
  cbn [List.length seq map firstn join fold_right filter].
  rewrite !append_empty_r, len_append, L1, L2. reflexivity.
Qed.

Lemma checkpoint_every_multiple_of_50_witness :
  let w := started_store 1 hello store1 in
  let am := assistant_message (started 1 hello store1) in
  let forty := "0123456789012345678901234567890123456789" in
  let ai := scripted [Some forty; Some "0123456789"; Some "abc"] None in
  healthy w = true /\ has_row 3 w /\
  calls (trace_of (generate_stream (Some ai) am [] hello w))
  = [(UpdateMessage 3 (forty ++ "0123456789")%string (Some true), true);
     (UpdateMessage 3 (forty ++ "0123456789abc")%string (Some false), true)].
Proof.
  cbv zeta. split; [reflexivity|].
  split; [apply (started_has_row 1 hello store1)|].
  apply (proj1 (checkpoint_every_multiple_of_50
           (scripted [Some "0123456789012345678901234567890123456789";
                      Some "0123456789"; Some "abc"] None)
           (assistant_message (started 1 hello store1)) [] hello
           (started_store 1 hello store1) eq_refl
           (started_has_row 1 hello store1))).
Defined.

(** The lengths are counted in characters: a token of 50 characters, one
    of them of two bytes, is checkpointed; and so is the text of 40
    characters followed by a token of 10 characters in 13 bytes. *)
Example checkpoint_counts_characters :
  let w := started_store 1 hello store1 in
  let am := assistant_message (started 1 hello store1) in
  let fifty := "é0123456789012345678901234567890123456789012345678" in
  let forty := "0123456789012345678901234567890123456789" in
  let ten := "éàü0123456" in
  (len fifty = 50 /\ String.length fifty = 51)
  /\ calls (trace_of (generate_stream
                        (Some (scripted [Some fifty; Some "more"] None))
                        am [] hello w))
     = [(UpdateMessage 3 fifty (Some true), true);
        (UpdateMessage 3 (fifty ++ "more")%string (Some false), true)]
  /\ (len ten = 10 /\ String.length ten = 13)
  /\ calls (trace_of (generate_stream
                        (Some (scripted [Some forty; Some ten] None))
                        am [] hello w))
     = [(UpdateMessage 3 (forty ++ ten)%string (Some true), true);
        (UpdateMessage 3 (forty ++ ten)%string (Some false), true)].
Proof. cbv zeta. repeat split; vm_compute; reflexivity. Qed.

(** C2. A valid call (non-empty text, conversation found, store available)
    is answered with a streaming response and nothing is sent before its
    generator runs; and whenever the endpoint answers with a streaming
    response, every run of its generator, whatever the store and the
    completion client do, sends token chunks followed by exactly one
    terminal chunk (complete or error), which is the last one sent. *)
Theorem exactly_one_terminal_event ai_service chat_id content w :
  (1 <= String.length content -> healthy w = true -> chat_exists chat_id w ->
   exists r w1 t,
     post_stream chat_id content w = (Streaming r, w1, t) /\ sent t = [])
  /\ (forall r w1 t,
        post_stream chat_id content w = (Streaming r, w1, t) ->
        forall w2, exists tokens last,
          let events := sent (trace_of (run_stream ai_service r w2)) in
          events
          = token_chunks (m_id (assistant_message r)) tokens ++ [last]
          /\ terminal last = true
          /\ filter terminal events = [last]).
Proof.
  split.
  - intros Hlen Hh Hex. unfold post_stream, MessageCreate_validate.
    apply Nat.leb_le in Hlen. rewrite Hlen.
    rewrite (stream_message_healthy _ _ _ Hh Hex).
    do 3 eexists. split; reflexivity.
  - intros r w1 t _ w2. unfold run_stream.
    destruct (generate_stream_shape ai_service (assistant_message r)
                (context_messages r) (message_data r) w2)
      as [[t' [_ [Ht Hs]]] | [e [t' [ok [k [Ht Hs]]]]]]; cbv zeta; rewrite Ht.
    + eexists. exists (complete_chunk (m_id (assistant_message r))).
      rewrite sent_app, Hs. cbn [sent]. split; [reflexivity|].
      split; [reflexivity|].
      rewrite filter_app, token_chunks_not_terminal. reflexivity.
    + eexists. exists (error_chunk e (m_id (assistant_message r))).
      rewrite sent_app, Hs. cbn [sent]. split; [reflexivity|].
      split; [reflexivity|].
      rewrite filter_app, token_chunks_not_terminal. reflexivity.
Qed.

Lemma exactly_one_terminal_event_witness :
  (1 <= String.length "hello" /\ healthy store1 = true /\ chat_exists 1 store1)
  /\ (exists r w1 t,
        post_stream 1 "hello" store1 = (Streaming r, w1, t) /\ sent t = [])
  /\ exists tokens last,
       let events :=
         sent (trace_of (run_stream (Some breaks_after_Par)
                           (started 1 hello store1) store1)) in
       events = token_chunks 3 tokens ++ [last]
       /\ terminal last = true
       /\ filter terminal events = [last].
Proof.
  split; [split; [cbn; lia | split; [reflexivity | exists chat1; reflexivity]]|].
  split.
  - apply (proj1 (exactly_one_terminal_event None 1 "hello" store1));
      [cbn; lia | reflexivity | exists chat1; reflexivity].
  - apply (proj2 (exactly_one_terminal_event (Some breaks_after_Par) 1 "hello"
                    store1)
             (started 1 hello store1) (started_store 1 hello store1)
             [Exec (SelectChat 1 DEMO_USER_ID) true;
              Exec (InsertMessage 1 USER "hello" false) true;
              Exec (InsertMessage 1 ASSISTANT "" true) true;
              Exec (SelectMessages 1) true]
             eq_refl store1).
Defined.

(** C4. For a conversation id no chat of the user has, whatever the store
    does, [stream_message] raises the 404 "Chat not found" exception, which
    the boundary answers with status 404; the only store call made is the
    lookup of the chat, nothing is sent, and both tables are as before: no
    user message and no placeholder is written. *)
Theorem unknown_chat_is_not_found chat_id md w :
  chat_absent chat_id w ->
  exists w',
    stream_message chat_id md w
    = (Raise (HTTPException 404 "Chat not found"), w',
       [Exec (SelectChat chat_id DEMO_USER_ID) false])
    /\ handle_exception (HTTPException 404 "Chat not found")
       = JSONResponse 404 "Chat not found"
    /\ messages w' = messages w
    /\ chats w' = chats w.
Proof.
  intros Ha. destruct (get_chat_absent chat_id w Ha) as [w' [E [Hc Hm]]].
  exists w'. unfold stream_message, try_except. unfold bind at 1.
  rewrite E. cbn. auto.
Qed.

Lemma unknown_chat_is_not_found_witness :
  chat_absent 7 store1 /\
  exists w',
    stream_message 7 hello store1
    = (Raise (HTTPException 404 "Chat not found"), w',
       [Exec (SelectChat 7 DEMO_USER_ID) false])
    /\ handle_exception (HTTPException 404 "Chat not found")
       = JSONResponse 404 "Chat not found"
    /\ messages w' = messages store1
    /\ chats w' = chats store1.
Proof.
  assert (chat_absent 7 store1) as Ha.
  { intros c [<-|[]]. reflexivity. }
  split; [exact Ha|].
  apply (unknown_chat_is_not_found 7 hello store1 Ha).
Defined.

(** C5, as stated, fails: an empty text is answered with status 422, not
    400. *)
Lemma empty_text_is_answered_422 :
  post_stream 1 "" store1
  = (JSONResponse 422 "String should have at least 1 character", store1, [])
  /\ forall detail,
       fst (fst (post_stream 1 "" store1)) <> JSONResponse 400 detail.
Proof.
  split; [reflexivity|]. intros detail H. vm_compute in H. discriminate H.
Qed.

(** C5, amended.  An empty text fails the validation of the request body
    before the endpoint runs: the answer is the framework's status 422, no
    store call is made, nothing is sent and the store is unchanged.  Status
    400 is the answer to a [ValueError] leaving an endpoint. *)
Theorem empty_text_is_rejected_without_effects chat_id w :
  post_stream chat_id "" w
  = (JSONResponse 422 "String should have at least 1 character", w, [])
  /\ forall msg, handle_exception (ValueError msg) = JSONResponse 400 msg.
Proof. split; reflexivity. Qed.

(* ================================================================== *)
(** ** The title task *)

Lemma stream_message_tasks chat_id md w r w1 t :
  stream_message chat_id md w = (Ok r, w1, t) ->
  background_tasks r
  = if List.length (context_messages r) =? 1
    then [(chat_id, mc_content md)] else [].
Proof.
  unfold stream_message, try_except. unfold bind at 1.
  destruct (db.get_chat chat_id DEMO_USER_ID w) as [[[[c|]|e] w0] t0].
  - unfold bind at 1.
    destruct (db.create_message chat_id USER (mc_content md) false w0)
      as [[[um|e] w2] t2].
    + unfold bind at 1.
      destruct (db.create_message chat_id ASSISTANT "" true w2)
        as [[[am|e] w3] t3].
      * unfold bind at 1.
        destruct (db.get_messages chat_id w3) as [[[ms|e] w4] t4].
        -- cbn. intros H. injection H as <- _ _. reflexivity.
        -- destruct e; cbn; discriminate.
      * destruct e; cbn; discriminate.
    + destruct e; cbn; discriminate.
  - cbn. discriminate.
  - destruct e; cbn; discriminate.
Qed.

Lemma update_chat_title_unfold chat_id title w :
  exists r ok,
    result_of (db.update_chat_title chat_id title w) = r
    /\ trace_of (db.update_chat_title chat_id title w)
       = [Exec (UpdateChatTitle chat_id title) ok]
    /\ messages (store_of (db.update_chat_title chat_id title w)) = messages w.
Proof.
  unfold db.update_chat_title. rewrite try_reraise.
  unfold bind, Supabase.chats_update_title. rewrite execute_unfold.
  next_outcome w; cbn [fst snd Supabase.is_ok];
    try (do 2 eexists; split; [reflexivity|]; split; reflexivity);
    match goal with
    | |- context [map ?f ?l] => destruct (map f l)
    end; cbn [ret raise];
    do 2 eexists; (split; [reflexivity|]); (split; [reflexivity|]);
    cbn; apply pop_messages.
Qed.

(** The task never raises, sends nothing to the client, leaves the
    messages alone, and calls the title update once when the AI service is
    configured. *)
Lemma generate_and_update_title_run ai_service chat_id first_message w :
  let x := generate_and_update_title ai_service chat_id first_message w in
  result_of x = Ok tt
  /\ sent (trace_of x) = []
  /\ messages (store_of x) = messages w
  /\ match ai_service with
     | Some ai =>
         exists ok,
           calls (trace_of x)
           = [(UpdateChatTitle chat_id (generate_chat_title ai first_message),
               ok)]
     | None => calls (trace_of x) = []
     end.
Proof.
  unfold generate_and_update_title, try_except, get_ai_service.
  unfold bind at 1. unfold lift.
  destruct ai_service as [ai|]; [|cbn; auto].
  destruct (update_chat_title_unfold chat_id
              (generate_chat_title ai first_message) w)
    as [r [ok [Hr [Ht Hm]]]].
  unfold bind.
  destruct (db.update_chat_title chat_id
              (generate_chat_title ai first_message) w)
    as [[[row|e] w1] t1];
    unfold trace_of, store_of in *; cbn [fst snd] in *; subst t1;
    cbn; repeat split; try assumption; exists ok; reflexivity.
Qed.

Lemma length_filter_insert_by {A} (key : A -> nat) desc (p : A -> bool) x l :
  List.length (filter p (Supabase.insert_by key desc x l))
  = List.length (filter p (x :: l)).
Proof.
  induction l as [|y l IH]; [reflexivity|].
  cbn [Supabase.insert_by].
  destruct (if desc then key y <=? key x else key x <=? key y);
    [reflexivity|].
  cbn [filter] in *. destruct (p y), (p x); cbn [List.length] in *; lia.
Qed.

Lemma length_filter_order {A} (key : A -> nat) desc (p : A -> bool) l :
  List.length (filter p (Supabase.order key desc l))
  = List.length (filter p l).
Proof.
  induction l as [|x l IH]; [reflexivity|].
  cbn [Supabase.order]. rewrite length_filter_insert_by.
  cbn [filter]. destruct (p x); cbn [List.length]; now rewrite IH.
Qed.

Lemma filter_all {A} (p : A -> bool) (l : list A) :
  Forall (fun x => p x = true) l -> filter p l = l.
Proof.
  induction 1 as [|x l Hx _ IH]; [reflexivity|].
  cbn. now rewrite Hx, IH.
Qed.

(** On a first look at the history the endpoint sees the messages the
    conversation already had, and the user message just written. *)
Lemma started_context_length chat_id md w :
  fresh_ids w ->
  List.length (context_messages (started chat_id md w))
  = S (List.length (filter (fun m => m_chat_id m =? chat_id) (messages w))).
Proof.
  intros Hf. cbn [started context_messages].
  rewrite length_filter_order.
  set (u := new_message chat_id USER (mc_content md) false (pop w)).
  set (p := new_message chat_id ASSISTANT "" true (inserted u (pop w))).
  assert (m_id u = next_id w) as Hu by apply pop_next_id.
  assert (m_id p = S (next_id w)) as Hp
    by (cbn [p new_message m_id inserted next_id]; now rewrite pop_next_id).
  rewrite Hp. cbn [inserted messages].
  rewrite pop_messages, <- app_assoc. cbn [app].
  rewrite filter_app. cbn [filter].
  change (m_chat_id u) with chat_id. change (m_chat_id p) with chat_id.
  rewrite Nat.eqb_refl, filter_app. cbn [filter].
  rewrite Hu, Hp, Nat.eqb_refl. cbn [negb].
  replace (next_id w =? S (next_id w)) with false
    by (symmetry; apply Nat.eqb_neq; lia).
  cbn [negb]. rewrite length_app. cbn [List.length].
  rewrite filter_all; [lia|].
  apply Forall_forall. intros m Hin.
  apply filter_In in Hin. destruct Hin as [Hin _].
  unfold fresh_ids in Hf. rewrite Forall_forall in Hf.
  specialize (Hf m Hin). apply negb_true_iff, Nat.eqb_neq. lia.
Qed.

(** C7, as stated, fails: without an API key the title task is scheduled
    on the first turn all the same, and when it runs it ends normally
    without any call of the title update. *)
Lemma scheduled_title_task_may_update_nothing :
  let r := started 1 hello store1 in
  let x := generate_and_update_title None 1 "hello"
             (started_store 1 hello store1) in
  result_of (stream_message 1 hello store1) = Ok r
  /\ List.length (context_messages r) = 1
  /\ background_tasks r = [(1, "hello")]
  /\ result_of x = Ok tt
  /\ calls (trace_of x) = [].
Proof. cbv zeta. repeat split. Qed.

(** C7, amended.  The title task is scheduled exactly when the fetched
    history without the placeholder has length 1, and then once, for this
    conversation and this text; on an available store that is the case
    exactly when the conversation had no message before the call.  The
    task calls the title update exactly once when the AI service is
    configured, and not at all when it is not ([get_ai_service] raises
    first); it never raises whatever fails inside it, sends no chunk to
    the client and touches no message. *)
Theorem title_task_on_first_turn_only ai_service chat_id md w :
  (forall r w1 t,
      stream_message chat_id md w = (Ok r, w1, t) ->
      (List.length (context_messages r) = 1 ->
       background_tasks r = [(chat_id, mc_content md)])
      /\ (List.length (context_messages r) <> 1 -> background_tasks r = []))
  /\ (healthy w = true -> fresh_ids w -> chat_exists chat_id w ->
      exists r w1 t,
        stream_message chat_id md w = (Ok r, w1, t)
        /\ List.length (context_messages r)
           = S (List.length
                  (filter (fun m => m_chat_id m =? chat_id) (messages w))))
  /\ (forall first_message w2,
        let x := generate_and_update_title ai_service chat_id first_message w2 in
        result_of x = Ok tt
        /\ sent (trace_of x) = []
        /\ messages (store_of x) = messages w2
        /\ match ai_service with
           | Some ai =>
               exists ok,
                 calls (trace_of x)
                 = [(UpdateChatTitle chat_id
                       (generate_chat_title ai first_message), ok)]
           | None => calls (trace_of x) = []
           end).
Proof.
  split; [|split].
  - intros r w1 t E. rewrite (stream_message_tasks _ _ _ _ _ _ E). split.
    + intros ->. reflexivity.
    + intros Hn. apply Nat.eqb_neq in Hn. now rewrite Hn.
  - intros Hh Hf Hex. do 3 eexists. split.
    + apply (stream_message_healthy _ _ _ Hh Hex).
    + apply started_context_length, Hf.
  - intros first_message w2. apply generate_and_update_title_run.
Qed.

Lemma title_task_on_first_turn_only_witness :
  (healthy store1 = true /\ fresh_ids store1 /\ chat_exists 1 store1)
  /\ background_tasks (started 1 hello store1) = [(1, "hello")]
  /\ (exists r w1 t,
        stream_message 1 hello store1 = (Ok r, w1, t)
        /\ List.length (context_messages r)
           = S (List.length
                  (filter (fun m => m_chat_id m =? 1) (messages store1))))
  /\ exists ok,
       calls (trace_of (generate_and_update_title (Some (scripted [] None))
                          1 "hello" (started_store 1 hello store1)))
       = [(UpdateChatTitle 1 "Greeting", ok)].
Proof.
  assert (fresh_ids store1) as Hf by constructor.
  assert (chat_exists 1 store1) as Hex by (exists chat1; reflexivity).
  pose proof (title_task_on_first_turn_only (Some (scripted [] None)) 1 hello
                store1) as [H1 [H2 H3]].
  split; [split; [reflexivity | split; assumption]|].
  split; [|split].
  - apply (proj1 (H1 (started 1 hello store1) (started_store 1 hello store1)
                    _ eq_refl)).
    reflexivity.
  - apply (H2 eq_refl Hf Hex).
  - apply (proj2 (proj2 (proj2 (H3 "hello" (started_store 1 hello store1))))).
Defined.

(* ================================================================== *)
(** ** Listing conversations *)

Lemma insert_by_In {A} (key : A -> nat) desc x y (l : list A) :
  In y (Supabase.insert_by key desc x l) -> y = x \/ In y l.
Proof.
  induction l as [|z l IH]; cbn [Supabase.insert_by].
  - intros [<-|[]]. now left.
  - destruct (if desc then key z <=? key x else key x <=? key z).
    + intros [<-|H]; [now left | now right].
    + intros [<-|H]; [right; now left|].
      destruct (IH H) as [->|H']; [now left | right; now right].
Qed.

Lemma insert_by_desc_sorted {A} (key : A -> nat) x (l : list A) :
  StronglySorted (fun a b => key b <= key a) l ->
  StronglySorted (fun a b => key b <= key a) (Supabase.insert_by key true x l).
Proof.
  induction 1 as [|y l Hs IH Hy]; cbn [Supabase.insert_by].
  - constructor; constructor.
  - destruct (key y <=? key x) eqn:E.
    + apply Nat.leb_le in E. constructor; [constructor; assumption|].
      constructor; [assumption|].
      apply Forall_forall. intros z Hz. rewrite Forall_forall in Hy.
      specialize (Hy z Hz). lia.
    + apply Nat.leb_gt in E. constructor; [exact IH|].
      apply Forall_forall. intros z Hz.
      destruct (insert_by_In _ _ _ _ _ Hz) as [->|Hz']; [lia|].
      rewrite Forall_forall in Hy. now apply Hy.
Qed.

Lemma order_desc_sorted {A} (key : A -> nat) (l : list A) :
  StronglySorted (fun a b => key b <= key a) (Supabase.order key true l).
Proof.
  induction l as [|x l IH]; cbn [Supabase.order]; [constructor|].
  now apply insert_by_desc_sorted.
Qed.

Lemma firstn_sorted {A} (R : A -> A -> Prop) n : forall l,
  StronglySorted R l -> StronglySorted R (firstn n l).
Proof.
  induction n as [|n IH]; intros l Hs; [constructor|].
  destruct Hs as [|x l Hs Hx]; cbn [firstn]; [constructor|].
  constructor; [now apply IH|].
  apply Forall_forall. intros y Hy. rewrite Forall_forall in Hx.
  apply Hx. rewrite <- (firstn_skipn n l). apply in_or_app. now left.
Qed.

Lemma filter_sorted {A} (R : A -> A -> Prop) (p : A -> bool) l :
  StronglySorted R l -> StronglySorted R (filter p l).
Proof.
  induction 1 as [|x l Hs IH Hx]; cbn [filter]; [constructor|].
  destruct (p x); [|exact IH].
  constructor; [exact IH|].
  apply Forall_forall. intros y Hy. rewrite Forall_forall in Hx.
  apply Hx. apply filter_In in Hy. tauto.
Qed.

(** The test of the loop is the test for a positive count. *)
Lemma count_test (n : nat) : negb (n =? 0) && (0 <? n) = (0 <? n).
Proof. destruct n; reflexivity. Qed.

Lemma get_chats_loop_step chat_data rest acc w :
  db.get_chats_loop (chat_data :: rest) acc w =
  match faults w with
  | Some msg :: fs =>
      (Raise (APIError msg), Supabase.with_faults fs w,
       [Exec (CountMessages (c_id chat_data)) false])
  | _ =>
      match db.get_chats_loop rest
              (if has_messages (messages w) chat_data
               then acc ++ [chat_data] else acc) (pop w) with
      | (r, w', t) => (r, w', Exec (CountMessages (c_id chat_data)) true :: t)
      end
  end.
Proof.
  cbn [db.get_chats_loop]. unfold bind at 1. unfold Supabase.messages_count.
  rewrite execute_unfold.
  next_outcome w; try reflexivity;
    cbn [fst snd Supabase.is_ok]; rewrite count_test, pop_messages;
    unfold has_messages;
    destruct (0 <? List.length
                     (filter (fun m => m_chat_id m =? c_id chat_data)
                        (messages w)));
    reflexivity.
Qed.

Lemma get_chats_loop_ok data : forall acc w l w' t,
  db.get_chats_loop data acc w = (Ok l, w', t) ->
  l = acc ++ filter (has_messages (messages w)) data.
Proof.
  induction data as [|chat_data rest IH]; intros acc w l w' t.
  - cbn. intros H. injection H as <- _ _. now rewrite app_nil_r.
  - rewrite get_chats_loop_step.
    assert (forall r0 w0 t0,
              db.get_chats_loop rest
                (if has_messages (messages w) chat_data
                 then acc ++ [chat_data] else acc) (pop w) = (r0, w0, t0) ->
              r0 = Ok l ->
              l = acc ++ filter (has_messages (messages w)) (chat_data :: rest))
      as Hstep.
    { intros r0 w0 t0 E ->. apply IH in E. rewrite pop_messages in E.
      cbn [filter]. destruct (has_messages (messages w) chat_data);
        [now rewrite <- app_assoc in E | exact E]. }
    next_outcome w; try discriminate;
      destruct (db.get_chats_loop rest _ (pop w)) as [[r0 w0] t0] eqn:E;
      intros H; injection H as -> _ _; eapply Hstep; eauto.
Qed.

Lemma get_chats_loop_healthy data : forall acc w,
  healthy w = true ->
  exists l w' t, db.get_chats_loop data acc w = (Ok l, w', t).
Proof.
  induction data as [|chat_data rest IH]; intros acc w Hh.
  - do 3 eexists. reflexivity.
  - rewrite get_chats_loop_step.
    destruct (IH (if has_messages (messages w) chat_data
                  then acc ++ [chat_data] else acc) (pop w) (pop_healthy _ Hh))
      as [l [w' [t E]]].
    rewrite E. unfold healthy in Hh.
    next_outcome w; cbn in Hh; try discriminate;
      do 3 eexists; reflexivity.
Qed.

Lemma get_chats_unfold user_id w :
  db.get_chats user_id w =
  match faults w with
  | Some msg :: fs =>
      (Raise (APIError msg), Supabase.with_faults fs w,
       [Exec (SelectChats user_id) false])
  | _ =>
      match db.get_chats_loop (window user_id w) [] (pop w) with
      | (r, w', t) => (r, w', Exec (SelectChats user_id) true :: t)
      end
  end.
Proof.
  unfold db.get_chats. rewrite try_reraise.
  unfold bind, Supabase.chats_select. rewrite execute_unfold.
  next_outcome w; try reflexivity;
    cbn [fst snd Supabase.is_ok]; unfold window, Supabase.limit;
    rewrite pop_chats; reflexivity.
Qed.

(** What the listing returns, when it returns: the chats of the window that
    own a message. *)
Lemma get_chats_ok user_id w l w' t :
  db.get_chats user_id w = (Ok l, w', t) ->
  l = filter (has_messages (messages w)) (window user_id w).
Proof.
  rewrite get_chats_unfold.
  next_outcome w; try discriminate;
    destruct (db.get_chats_loop (window user_id w) [] (pop w))
      as [[r0 w0] t0] eqn:E;
    intros H; injection H as -> _ _;
    apply get_chats_loop_ok in E; rewrite pop_messages in E; exact E.
Qed.

Lemma get_chats_healthy user_id w :
  healthy w = true -> exists l w' t, db.get_chats user_id w = (Ok l, w', t).
Proof.
  intros Hh. rewrite get_chats_unfold.
  destruct (get_chats_loop_healthy (window user_id w) [] (pop w)
              (pop_healthy _ Hh)) as [l [w' [t E]]].
  rewrite E. unfold healthy in Hh.
  next_outcome w; cbn in Hh; try discriminate;
    do 3 eexists; reflexivity.
Qed.

Lemma has_messages_owner ms c :
  has_messages ms c = true -> exists m, In m ms /\ m_chat_id m = c_id c.
Proof.
  unfold has_messages. intros H. apply Nat.ltb_lt in H.
  destruct (filter (fun m => m_chat_id m =? c_id c) ms) as [|m l] eqn:E;
    [cbn in H; lia|].
  assert (In m (filter (fun m => m_chat_id m =? c_id c) ms)) as Hin
    by (rewrite E; now left).
  apply filter_In in Hin. destruct Hin as [Hin Hid].
  exists m. split; [assumption | now apply Nat.eqb_eq].
Qed.

(** C8. Whatever the state of the store, the listing, when it returns,
    returns only conversations that own a message, newest update first,
    and at most 50 of them; and it does return when the store is
    available. *)
Theorem listing_is_filtered_ordered_capped user_id w :
  (forall l w' t,
      db.get_chats user_id w = (Ok l, w', t) ->
      Forall (fun c => exists m, In m (messages w) /\ m_chat_id m = c_id c) l
      /\ StronglySorted newer_first l
      /\ List.length l <= 50)
  /\ (healthy w = true ->
      exists l w' t, db.get_chats user_id w = (Ok l, w', t)).
Proof.
  split; [|apply get_chats_healthy].
  intros l w' t E. apply get_chats_ok in E. subst l. split; [|split].
  - apply Forall_forall. intros c Hc. apply filter_In in Hc.
    now apply has_messages_owner.
  - apply filter_sorted, firstn_sorted. apply order_desc_sorted.
  - etransitivity; [apply filter_length_le|]. apply firstn_le_length.
Qed.

Lemma listing_is_filtered_ordered_capped_witness :
  healthy store3 = true /\
  (exists l w' t,
      db.get_chats DEMO_USER_ID store3 = (Ok l, w', t)
      /\ map c_id l = [3; 1]
      /\ Forall (fun c => exists m,
                   In m (messages store3) /\ m_chat_id m = c_id c) l
      /\ StronglySorted newer_first l
      /\ List.length l <= 50).
Proof.
  split; [reflexivity|].
  do 3 eexists. split; [reflexivity|]. split; [reflexivity|].
  apply (proj1 (listing_is_filtered_ordered_capped DEMO_USER_ID store3)
           _ _ _ eq_refl).
Defined.

(** C10. The listing caps before it filters: when it returns, the result is
    the sub-list, of the 50 most recently updated conversations of the
    user, of those owning a message.  So a conversation with a message but
    outside those 50 is left out even though the result is short of 50
    entries: among fifty-one conversations of which only the oldest has a
    message, the listing is empty. *)
Theorem listing_caps_before_filtering user_id w :
  (forall l w' t,
      db.get_chats user_id w = (Ok l, w', t) ->
      l = filter (has_messages (messages w))
            (firstn 50
               (Supabase.order c_updated_at true
                  (filter (fun c => String.eqb (c_user_id c) user_id)
                     (chats w)))))
  /\ (exists c,
        In c (chats crowded)
        /\ c_user_id c = DEMO_USER_ID
        /\ has_messages (messages crowded) c = true
        /\ healthy crowded = true
        /\ result_of (db.get_chats DEMO_USER_ID crowded) = Ok []).
Proof.
  split.
  - intros l w' t E. apply (get_chats_ok _ _ _ _ _ E).
  - eexists. split; [left; reflexivity|].
    split; [reflexivity|]. split; [reflexivity|]. split; [reflexivity|].
    vm_compute. reflexivity.
Qed.

Lemma listing_caps_before_filtering_witness :
  exists l w' t,
    db.get_chats DEMO_USER_ID store3 = (Ok l, w', t)
    /\ l = filter (has_messages (messages store3))
             (firstn 50
                (Supabase.order c_updated_at true
                   (filter (fun c => String.eqb (c_user_id c) DEMO_USER_ID)
                      (chats store3)))).
Proof.
  do 3 eexists. split; [reflexivity|].
  apply (proj1 (listing_caps_before_filtering DEMO_USER_ID store3)
           _ _ _ eq_refl).
Defined.

(* ================================================================== *)
(** ** Store failures at the gateway *)

(** C9, as stated, fails: with the store unreachable, [get_chat] and
    [delete_chat] return what they return for a conversation that is not
    there, and the stream endpoint answers 404 in both cases. *)
Lemma storage_failure_reads_as_not_found :
  result_of (db.get_chat 1 DEMO_USER_ID store_down) = Ok None
  /\ result_of (db.get_chat 1 DEMO_USER_ID store_empty) = Ok None
  /\ result_of (db.delete_chat 1 DEMO_USER_ID store_down) = Ok false
  /\ result_of (db.delete_chat 1 DEMO_USER_ID store_empty) = Ok false
  /\ fst (fst (post_stream 1 "hello" store_down))
     = JSONResponse 404 "Chat not found"
  /\ fst (fst (post_stream 1 "hello" store_empty))
     = JSONResponse 404 "Chat not found".
Proof. repeat split. Qed.

Lemma delete_chat_unfold chat_id user_id w :
  result_of (db.delete_chat chat_id user_id w) =
  match faults w with
  | Some msg :: fs => Ok false
  | _ => Ok (0 <? List.length
                    (filter (fun c => (c_id c =? chat_id)
                                      && String.eqb (c_user_id c) user_id)
                       (chats w)))
  end.
Proof.
  unfold db.delete_chat, try_except, bind, Supabase.chats_delete.
  rewrite execute_unfold.
  next_outcome w; try reflexivity;
    cbn; now rewrite pop_chats.
Qed.

(** C9, amended.  When the store fails at the next call with [msg]:
    [get_chat] returns [None] and [delete_chat] returns [False], which is
    also what they return on an available store for a conversation that is
    not there; every other operation of the gateway raises the store's
    exception, [APIError msg]. *)
Theorem storage_failure_by_operation w msg fs :
  faults w = Some msg :: fs ->
  (forall chat_id user_id,
      result_of (db.get_chat chat_id user_id w) = Ok None
      /\ result_of (db.delete_chat chat_id user_id w) = Ok false)
  /\ (forall chat_id w0,
        healthy w0 = true -> chat_absent chat_id w0 ->
        result_of (db.get_chat chat_id DEMO_USER_ID w0) = Ok None
        /\ result_of (db.delete_chat chat_id DEMO_USER_ID w0) = Ok false)
  /\ (forall title user_id,
        result_of (db.create_chat title user_id w) = Raise (APIError msg))
  /\ (forall user_id,
        result_of (db.get_chats user_id w) = Raise (APIError msg))
  /\ (forall chat_id,
        result_of (db.get_messages chat_id w) = Raise (APIError msg))
  /\ (forall chat_id role content is_streaming,
        result_of (db.create_message chat_id role content is_streaming w)
        = Raise (APIError msg))
  /\ (forall message_id content is_streaming,
        result_of (db.update_message_content message_id content is_streaming w)
        = Raise (APIError msg))
  /\ (forall chat_id title,
        result_of (db.update_chat_title chat_id title w)
        = Raise (APIError msg)).
Proof.
  intros Hf. split; [|split].
  - intros chat_id user_id. rewrite get_chat_unfold, delete_chat_unfold, Hf.
    split; reflexivity.
  - intros chat_id w0 Hh Ha. split.
    + destruct (get_chat_absent chat_id w0 Ha) as [w' [E _]]. now rewrite E.
    + rewrite delete_chat_unfold.
      pose proof (filter_owned_absent chat_id w0 Ha) as H0.
      unfold owned in H0. rewrite H0.
      unfold healthy in Hh.
      next_outcome w0; cbn in Hh; try discriminate;
        reflexivity.
  - repeat split; intros;
      unfold db.create_chat, db.get_chats, db.get_messages, db.create_message,
        db.update_message_content, db.update_chat_title;
      rewrite try_reraise;
      unfold bind, Supabase.chats_insert, Supabase.chats_select,
        Supabase.messages_select, Supabase.messages_insert,
        Supabase.messages_update, Supabase.chats_update_title;
      rewrite (execute_fault _ _ _ _ _ Hf); reflexivity.
Qed.

Lemma storage_failure_by_operation_witness :
  faults store_down = [Some "connection refused"] /\
  result_of (db.get_chat 1 DEMO_USER_ID store_down) = Ok None /\
  result_of (db.get_messages 1 store_down)
  = Raise (APIError "connection refused").
Proof.
  split; [reflexivity|].
  pose proof (storage_failure_by_operation store_down "connection refused" []
                eq_refl) as H.
  split.
  - apply (proj1 (proj1 H 1 DEMO_USER_ID)).
  - apply (proj1 (proj2 (proj2 (proj2 (proj2 H)))) 1).
Defined.

(* ================================================================== *)
(** ** Further properties: the title of a conversation *)

Lemma lstrip_first p s c : first_char (lstrip p s) = Some c -> p c = false.
Proof.
  induction s as [|a s IH]; cbn [lstrip]; [discriminate|].
  destruct (p a) eqn:E; [exact IH|].
  cbn. intros H. injection H as <-. exact E.
Qed.

Lemma rstrip_last p s c : last_char (rstrip p s) = Some c -> p c = false.
Proof.
  induction s as [|a s IH]; cbn [rstrip]; [discriminate|].
  destruct (rstrip p s) as [|b r] eqn:E.
  - destruct (p a) eqn:Ea; cbn; [discriminate|].
    intros H. injection H as <-. exact Ea.
  - exact IH.
Qed.

Lemma rstrip_first p s c :
  first_char (rstrip p s) = Some c -> first_char s = Some c.
Proof.
  destruct s as [|a s]; cbn [rstrip]; [discriminate|].
  destruct (rstrip p s); [destruct (p a)|]; cbn; auto; discriminate.
Qed.

Lemma strip_ends p s :
  (forall c, first_char (strip p s) = Some c -> p c = false)
  /\ (forall c, last_char (strip p s) = Some c -> p c = false).
Proof.
  unfold strip. split; intros c H.
  - apply rstrip_first in H. now apply lstrip_first in H.
  - now apply rstrip_last in H.
Qed.

(** X1. The title [generate_chat_title] returns is never empty and neither
    starts nor ends with a quote character.  It is the completion's text
    with surrounding white space, then surrounding quotes, removed, when
    that is not empty; it is "New Chat" whenever the client raises or
    answers without content. *)
Theorem title_is_never_empty_nor_quoted self first_message :
  let title := generate_chat_title self first_message in
  let answer := create (client self) (title_request first_message) in
  title <> ""
  /\ (forall c, first_char title = Some c -> is_quote c = false)
  /\ (forall c, last_char title = Some c -> is_quote c = false)
  /\ (forall content,
        answer = Ok (Some content) ->
        strip is_quote (strip_space content) <> "" ->
        title = strip is_quote (strip_space content))
  /\ ((forall content, answer <> Ok (Some content)) -> title = "New Chat").
Proof.
  intros title answer. subst title. unfold generate_chat_title.
  change (create (client self) _) with answer.
  destruct answer as [[content|]|e].
  - destruct (strip_ends is_quote (strip_space content)) as [Hf Hl].
    destruct (strip is_quote (strip_space content)) as [|a t] eqn:E.
    + repeat split; try discriminate.
      * intros c H. cbn in H. injection H as <-. reflexivity.
      * intros c H. cbn in H. injection H as <-. reflexivity.
      * intros content' H. injection H as <-. rewrite E. congruence.
    + repeat split; try discriminate; try assumption.
      * intros content' H _. injection H as <-. now rewrite E.
      * intros H. now elim (H content).
  - repeat split; try discriminate.
    + intros c H. cbn in H. injection H as <-. reflexivity.
    + intros c H. cbn in H. injection H as <-. reflexivity.
  - repeat split; try discriminate.
    + intros c H. cbn in H. injection H as <-. reflexivity.
    + intros c H. cbn in H. injection H as <-. reflexivity.
Qed.

Lemma title_is_never_empty_nor_quoted_witness :
  create (client (scripted [] None)) (title_request "hello")
  = Ok (Some " 'Greeting' ")
  /\ generate_chat_title (scripted [] None) "hello" = "Greeting".
Proof.
  split; [reflexivity|].
  apply (proj1 (proj2 (proj2 (proj2
           (title_is_never_empty_nor_quoted (scripted [] None) "hello"))))
           " 'Greeting' " eq_refl).
  vm_compute. discriminate.
Defined.

(* ================================================================== *)
(** ** Further properties: what a stream writes *)

Lemma touches_only_refl mid l : touches_only mid l l.
Proof.
  unfold touches_only. induction l as [|m l IH]; constructor; auto 6.
Qed.

Lemma touches_only_trans mid l1 l2 l3 :
  touches_only mid l1 l2 -> touches_only mid l2 l3 -> touches_only mid l1 l3.
Proof.
  unfold touches_only. intros H12. revert l3.
  induction H12 as [|a b l1 l2 Hab _ IH]; intros l3 H23.
  - inversion H23. constructor.
  - inversion H23 as [|b' c l2' l3' Hbc H23']; subst. constructor.
    + destruct Hab as [A1 [A2 [A3 [A4 A5]]]].
      destruct Hbc as [B1 [B2 [B3 [B4 B5]]]].
      repeat split; try congruence.
      intros Hn. rewrite B5, A5; congruence.
    + now apply IH.
Qed.

Lemma touches_only_update_rows mid c s l :
  touches_only mid l
    (Supabase.update_rows (hit mid) (Supabase.set_message c s) l).
Proof.
  unfold touches_only, Supabase.update_rows.
  induction l as [|m l IH]; cbn [map]; constructor; [|exact IH].
  unfold hit. destruct (m_id m =? mid) eqn:E; cbn; repeat split; auto.
  - intros Hn. apply Nat.eqb_eq in E. contradiction.
Qed.

(** Whatever the store does, one [update_message_content] leaves the
    conversations alone and touches the addressed row only. *)
Lemma update_message_content_frame mid c s w :
  let w' := store_of (db.update_message_content mid c s w) in
  chats w' = chats w /\ touches_only mid (messages w) (messages w').
Proof.
  cbv zeta. unfold db.update_message_content. rewrite try_reraise.
  unfold bind, Supabase.messages_update. rewrite execute_unfold.
  next_outcome w.
  - cbn [fst snd Supabase.is_ok].
    destruct (map _ _); cbn; rewrite pop_chats, pop_messages;
      (split; [reflexivity | apply touches_only_update_rows]).
  - cbn. split; [reflexivity | apply touches_only_refl].
  - cbn [fst snd Supabase.is_ok].
    destruct (map _ _); cbn; rewrite pop_chats, pop_messages;
      (split; [reflexivity | apply touches_only_update_rows]).
Qed.

Lemma stream_tokens_frame mid tokens : forall acc w,
  let w' := store_of (stream_tokens mid tokens acc w) in
  chats w' = chats w /\ touches_only mid (messages w) (messages w').
Proof.
  induction tokens as [|token rest IH]; intros acc w; cbv zeta.
  - cbn. split; [reflexivity | apply touches_only_refl].
  - rewrite stream_tokens_cons.
    destruct (len (acc ++ token) mod 50 =? 0).
    + pose proof (update_message_content_frame mid (acc ++ token)%string
                    (Some true) w) as Hu. cbv zeta in Hu.
      destruct (db.update_message_content mid (acc ++ token)%string
                  (Some true) w) as [[[row|e] w1] t1];
        unfold store_of in Hu; cbn [fst snd] in Hu.
      * specialize (IH (acc ++ token)%string w1). cbv zeta in IH.
        destruct (stream_tokens mid rest (acc ++ token)%string w1)
          as [[r w2] t2].
        unfold store_of in *; cbn [fst snd] in *.
        destruct Hu as [Hc Ht], IH as [Hc' Ht']. split; [congruence|].
        eapply touches_only_trans; eassumption.
      * exact Hu.
    + specialize (IH (acc ++ token)%string w). cbv zeta in IH.
      destruct (stream_tokens mid rest (acc ++ token)%string w)
        as [[r w2] t2]. exact IH.
Qed.

Lemma except_clause_frame mid e w :
  let w' :=
    store_of ((yield (error_chunk e mid) ;;;
               _ <- db.update_message_content mid (apology e) (Some false) ;;
               ret tt) w) in
  chats w' = chats w /\ touches_only mid (messages w) (messages w').
Proof.
  cbv zeta. unfold bind, yield, ret.
  pose proof (update_message_content_frame mid (apology e) (Some false) w)
    as Hu. cbv zeta in Hu.
  destruct (db.update_message_content mid (apology e) (Some false) w)
    as [[[row|e'] w1] t1]; exact Hu.
Qed.

Lemma generate_stream_frame ai_service am ctx md w :
  chats (store_of (generate_stream ai_service am ctx md w)) = chats w
  /\ touches_only (m_id am) (messages w)
       (messages (store_of (generate_stream ai_service am ctx md w))).
Proof.
  rewrite generate_stream_unfold. destruct ai_service as [ai|].
  - pose proof (stream_tokens_frame (m_id am)
                  (source_tokens (Some ai) ctx md) "" w) as Hl.
    cbv zeta in Hl.
    destruct (stream_tokens (m_id am) (source_tokens (Some ai) ctx md) "" w)
      as [[[acc|e] w1] t1]; unfold store_of in Hl; cbn [fst snd] in Hl;
      destruct Hl as [Hc1 Ht1].
    + pose proof (update_message_content_frame (m_id am) acc (Some false) w1)
        as Hu. cbv zeta in Hu.
      destruct (db.update_message_content (m_id am) acc (Some false) w1)
        as [[[row|e] w2] t2]; unfold store_of in Hu; cbn [fst snd] in Hu;
        destruct Hu as [Hc2 Ht2].
      * unfold store_of; cbn [fst snd]. split; [congruence|].
        eapply touches_only_trans; eassumption.
      * pose proof (except_clause_frame (m_id am) e w2) as He.
        cbv zeta in He.
        destruct ((yield (error_chunk e (m_id am)) ;;; _) w2)
          as [[r w3] t3]; unfold store_of in *; cbn [fst snd] in *.
        destruct He as [Hc3 Ht3]. split; [congruence|].
        eapply touches_only_trans; [|eassumption].
        eapply touches_only_trans; eassumption.
    + pose proof (except_clause_frame (m_id am) e w1) as He.
      cbv zeta in He.
      destruct ((yield (error_chunk e (m_id am)) ;;; _) w1)
        as [[r w3] t3]; unfold store_of in *; cbn [fst snd] in *.
      destruct He as [Hc3 Ht3]. split; [congruence|].
      eapply touches_only_trans; eassumption.
  - apply except_clause_frame.
Qed.

Lemma touches_only_In mid l l' m :
  touches_only mid l l' -> In m l ->
  exists m',
    In m' l' /\ m_id m' = m_id m /\ m_chat_id m' = m_chat_id m
    /\ m_role m' = m_role m /\ (m_id m <> mid -> m' = m).
Proof.
  unfold touches_only. intros H. induction H as [|a b l l' Hab _ IH]; [easy|].
  intros [->|Hin].
  - exists b. split; [now left|]. tauto.
  - destruct (IH Hin) as [m' [Hin' H']]. exists m'. split; [now right | exact H'].
Qed.

(** X2. Whatever the store and the completion client do, a run of the
    generator inserts and deletes nothing: the conversations are as before,
    the messages table has the same rows in the same places, and a row
    with another identifier than the placeholder's is unchanged. *)
Theorem stream_touches_only_the_placeholder ai_service am ctx md w :
  let w' := store_of (generate_stream ai_service am ctx md w) in
  chats w' = chats w
  /\ List.length (messages w') = List.length (messages w)
  /\ touches_only (m_id am) (messages w) (messages w')
  /\ (forall m, In m (messages w) -> m_id m <> m_id am -> In m (messages w')).
Proof.
  cbv zeta.
  destruct (generate_stream_frame ai_service am ctx md w) as [Hc Ht].
  split; [exact Hc|]. split; [|split; [exact Ht|]].
  - symmetry. apply (Forall2_length Ht).
  - intros m Hin Hn.
    destruct (touches_only_In _ _ _ _ Ht Hin) as [m' [Hin' [_ [_ [_ H]]]]].
    now rewrite <- (H Hn).
Qed.

Lemma stream_touches_only_the_placeholder_witness :
  let am := {| m_id := 3; m_chat_id := 1; m_role := ASSISTANT;
               m_content := "b"; m_created_at := 5; m_updated_at := 5;
               m_is_streaming := false |} in
  let m := {| m_id := 2; m_chat_id := 1; m_role := USER; m_content := "a";
              m_created_at := 4; m_updated_at := 4;
              m_is_streaming := false |} in
  In m (messages store2) /\ m_id m <> m_id am
  /\ In m (messages (store_of (generate_stream None am [] hello store2))).
Proof.
  cbv zeta.
  assert (2 <> 3) as Hn by discriminate.
  split; [right; left; reflexivity|]. split; [exact Hn|].
  apply (proj2 (proj2 (proj2
           (stream_touches_only_the_placeholder None
              {| m_id := 3; m_chat_id := 1; m_role := ASSISTANT;
                 m_content := "b"; m_created_at := 5; m_updated_at := 5;
                 m_is_streaming := false |} [] hello store2)))
           _ (or_intror (or_introl eq_refl)) Hn).
Defined.

(* ================================================================== *)
(** ** Further properties: the gateway *)

Lemma insert_by_perm {A} (key : A -> nat) desc x (l : list A) :
  Permutation (Supabase.insert_by key desc x l) (x :: l).
Proof.
  induction l as [|y l IH]; cbn [Supabase.insert_by]; [reflexivity|].
  destruct (if desc then key y <=? key x else key x <=? key y);
    [reflexivity|].
  etransitivity; [apply perm_skip, IH | apply perm_swap].
Qed.

Lemma order_perm {A} (key : A -> nat) desc (l : list A) :
  Permutation (Supabase.order key desc l) l.
Proof.
  induction l as [|x l IH]; cbn [Supabase.order]; [reflexivity|].
  etransitivity; [apply insert_by_perm | now apply perm_skip].
Qed.

Lemma insert_by_asc_sorted {A} (key : A -> nat) x (l : list A) :
  StronglySorted (fun a b => key a <= key b) l ->
  StronglySorted (fun a b => key a <= key b) (Supabase.insert_by key false x l).
Proof.
  induction 1 as [|y l Hs IH Hy]; cbn [Supabase.insert_by].
  - constructor; constructor.
  - destruct (key x <=? key y) eqn:E.
    + apply Nat.leb_le in E. constructor; [constructor; assumption|].
      constructor; [assumption|].
      apply Forall_forall. intros z Hz. rewrite Forall_forall in Hy.
      specialize (Hy z Hz). lia.
    + apply Nat.leb_gt in E. constructor; [exact IH|].
      apply Forall_forall. intros z Hz.
      destruct (insert_by_In _ _ _ _ _ Hz) as [->|Hz']; [lia|].
      rewrite Forall_forall in Hy. now apply Hy.
Qed.

Lemma order_asc_sorted {A} (key : A -> nat) (l : list A) :
  StronglySorted (fun a b => key a <= key b) (Supabase.order key false l).
Proof.
  induction l as [|x l IH]; cbn [Supabase.order]; [constructor|].
  now apply insert_by_asc_sorted.
Qed.

Lemma get_messages_unfold chat_id w :
  db.get_messages chat_id w =
  match faults w with
  | Some msg :: fs =>
      (Raise (APIError msg), Supabase.with_faults fs w,
       [Exec (SelectMessages chat_id) false])
  | _ =>
      (Ok (Supabase.order m_created_at false
             (filter (fun m => m_chat_id m =? chat_id) (messages w))),
       pop w, [Exec (SelectMessages chat_id) true])
  end.
Proof.
  unfold db.get_messages. rewrite try_reraise.
  unfold Supabase.messages_select. rewrite execute_unfold.
  next_outcome w; cbn [fst snd Supabase.is_ok]; rewrite ?pop_messages;
    reflexivity.
Qed.

(** X3. When [get_messages] returns, it returns the messages of the
    conversation, all of them and no other, oldest first, and the tables
    are as before; it returns whenever the store is available and raises
    the store's exception when the store fails. *)
Theorem get_messages_is_the_ordered_history chat_id w :
  (forall l w' t,
      db.get_messages chat_id w = (Ok l, w', t) ->
      StronglySorted oldest_first l
      /\ Permutation l (filter (fun m => m_chat_id m =? chat_id) (messages w))
      /\ messages w' = messages w
      /\ chats w' = chats w)
  /\ (healthy w = true ->
      exists l w' t, db.get_messages chat_id w = (Ok l, w', t))
  /\ (forall msg fs,
        faults w = Some msg :: fs ->
        result_of (db.get_messages chat_id w) = Raise (APIError msg)).
Proof.
  split; [|split].
  - intros l w' t. rewrite get_messages_unfold.
    next_outcome w; try discriminate;
      intros H; injection H as <- <- _;
      rewrite pop_messages, pop_chats;
      (split; [apply order_asc_sorted|]);
      (split; [apply order_perm|]); split; reflexivity.
  - intros Hh. rewrite (get_messages_healthy _ _ Hh). do 3 eexists. reflexivity.
  - intros msg fs Hf. rewrite get_messages_unfold, Hf. reflexivity.
Qed.

Lemma get_messages_is_the_ordered_history_witness :
  healthy store2 = true /\
  exists l w' t,
    db.get_messages 1 store2 = (Ok l, w', t)
    /\ map m_id l = [2; 3]
    /\ StronglySorted oldest_first l
    /\ Permutation l (filter (fun m => m_chat_id m =? 1) (messages store2))
    /\ messages w' = messages store2
    /\ chats w' = chats store2.
Proof.
  split; [reflexivity|].
  do 3 eexists. split; [reflexivity|]. split; [reflexivity|].
  apply (proj1 (get_messages_is_the_ordered_history 1 store2) _ _ _ eq_refl).
Defined.

(** X4. On an available store a created message is read back: the row
    [create_message] returns carries the given conversation, role, content
    and flag, and the history [get_messages] then returns contains it and
    is one longer than the conversation was. *)
Theorem created_message_is_read_back chat_id role content is_streaming w :
  healthy w = true ->
  exists row w1 t1 l w2 t2,
    db.create_message chat_id role content is_streaming w = (Ok row, w1, t1)
    /\ m_chat_id row = chat_id
    /\ m_role row = role
    /\ m_content row = content
    /\ m_is_streaming row = is_streaming
    /\ db.get_messages chat_id w1 = (Ok l, w2, t2)
    /\ In row l
    /\ List.length l
       = S (List.length (filter (fun m => m_chat_id m =? chat_id) (messages w))).
Proof.
  intros Hh.
  set (row := new_message chat_id role content is_streaming w).
  pose proof (inserted_healthy row w Hh) as Hh1.
  exists row, (inserted row w). eexists. do 3 eexists.
  split; [apply (create_message_healthy _ _ _ _ _ Hh)|].
  do 4 (split; [reflexivity|]).
  split; [apply (get_messages_healthy _ _ Hh1)|].
  assert (filter (fun m => m_chat_id m =? chat_id) (messages (inserted row w))
          = filter (fun m => m_chat_id m =? chat_id) (messages w) ++ [row])
    as Hf.
  { cbn [inserted messages]. rewrite filter_app. cbn [filter].
    change (m_chat_id row) with chat_id. now rewrite Nat.eqb_refl. }
  rewrite Hf. split.
  - eapply Permutation_in; [symmetry; apply order_perm|].
    apply in_or_app. right. now left.
  - rewrite (Permutation_length (order_perm _ _ _)), length_app. cbn. lia.
Qed.

Lemma created_message_is_read_back_witness :
  healthy store2 = true /\
  exists row w1 t1 l w2 t2,
    db.create_message 1 USER "again" false store2 = (Ok row, w1, t1)
    /\ m_chat_id row = 1
    /\ m_role row = USER
    /\ m_content row = "again"
    /\ m_is_streaming row = false
    /\ db.get_messages 1 w1 = (Ok l, w2, t2)
    /\ In row l
    /\ List.length l
       = S (List.length (filter (fun m => m_chat_id m =? 1) (messages store2))).
Proof.
  split; [reflexivity|].
  apply (created_message_is_read_back 1 USER "again" false store2 eq_refl).
Defined.

Lemma create_chat_unfold title user_id w :
  db.create_chat title user_id w =
  match faults w with
  | Some msg :: fs =>
      (Raise (APIError msg), Supabase.with_faults fs w,
       [Exec (InsertChat title user_id) false])
  | _ =>
      let row := {| c_id := next_id w; c_title := title;
                    c_created_at := now w; c_updated_at := now w;
                    c_user_id := user_id |} in
      (Ok row,
       {| chats := chats w ++ [row]; messages := messages w;
          next_id := S (next_id w); now := S (now w);
          faults := faults (pop w) |},
       [Exec (InsertChat title user_id) true])
  end.
Proof.
  unfold db.create_chat. rewrite try_reraise.
  unfold bind, Supabase.chats_insert. rewrite execute_unfold.
  next_outcome w; cbn [fst snd Supabase.is_ok ret app];
    rewrite ?pop_chats, ?pop_messages, ?pop_next_id, ?pop_now; reflexivity.
Qed.

Lemma filter_none {A} (p : A -> bool) (l : list A) :
  Forall (fun x => p x = false) l -> filter p l = [].
Proof.
  induction 1 as [|x l Hx _ IH]; [reflexivity|].
  cbn. now rewrite Hx.
Qed.

(** X5. On an available store whose identifiers are fresh, a conversation
    created for the demo user is found again by [get_chat] under the
    identifier it was given, with the title asked for; but, owning no
    message, it is not among the conversations [get_chats] lists. *)
Theorem created_chat_is_found_but_not_listed title w :
  healthy w = true -> fresh_chat_ids w -> linked w ->
  exists row w1 t1 l,
    db.create_chat title DEMO_USER_ID w = (Ok row, w1, t1)
    /\ c_title row = title
    /\ c_user_id row = DEMO_USER_ID
    /\ messages w1 = messages w
    /\ result_of (db.get_chat (c_id row) DEMO_USER_ID w1) = Ok (Some row)
    /\ result_of (db.get_chats DEMO_USER_ID w1) = Ok l
    /\ ~ In row l.
Proof.
  intros Hh Hfresh Hlinked.
  pose proof (create_chat_unfold title DEMO_USER_ID w) as E.
  assert (healthy
            {| chats := chats w
                        ++ [{| c_id := next_id w; c_title := title;
                               c_created_at := now w; c_updated_at := now w;
                               c_user_id := DEMO_USER_ID |}];
               messages := messages w; next_id := S (next_id w);
               now := S (now w); faults := faults (pop w) |} = true) as Hh1
    by exact (pop_healthy _ Hh).
  destruct (get_chats_healthy DEMO_USER_ID _ Hh1) as [l [w2 [t2 El]]].
  unfold healthy in Hh.
  eexists. eexists. eexists. exists l.
  split.
  { rewrite E. next_outcome w; cbn in Hh; try discriminate; reflexivity. }
  do 3 (split; [reflexivity|]).
  split; [|split].
  - erewrite get_chat_healthy; [reflexivity | exact Hh1 |].
    cbn [chats c_id]. rewrite filter_app. cbn [filter].
    unfold owned at 2. cbn [c_id c_user_id].
    rewrite Nat.eqb_refl, String.eqb_refl. cbn [andb].
    rewrite filter_none; [reflexivity|].
    eapply Forall_impl; [|exact Hfresh]. intros c Hc. cbn beta in Hc.
    unfold owned. replace (c_id c =? next_id w) with false; [reflexivity|].
    symmetry. apply Nat.eqb_neq. lia.
  - now rewrite El.
  - intros Hin. apply get_chats_ok in El. subst l.
    apply filter_In in Hin. destruct Hin as [_ Hm].
    apply has_messages_owner in Hm. destruct Hm as [m [Hin Hid]].
    cbn [messages c_id] in Hin, Hid.
    unfold linked in Hlinked. rewrite Forall_forall in Hlinked.
    specialize (Hlinked m Hin). lia.
Qed.

Lemma created_chat_is_found_but_not_listed_witness :
  (healthy store2 = true /\ fresh_chat_ids store2 /\ linked store2)
  /\ exists row w1 t1 l,
       db.create_chat "Plans" DEMO_USER_ID store2 = (Ok row, w1, t1)
       /\ c_title row = "Plans"
       /\ c_user_id row = DEMO_USER_ID
       /\ messages w1 = messages store2
       /\ result_of (db.get_chat (c_id row) DEMO_USER_ID w1) = Ok (Some row)
       /\ result_of (db.get_chats DEMO_USER_ID w1) = Ok l
       /\ ~ In row l.
Proof.
  assert (fresh_chat_ids store2) as H1
    by (repeat constructor).
  assert (linked store2) as H2
    by (repeat constructor).
  split; [split; [reflexivity | split; assumption]|].
  apply (created_chat_is_found_but_not_listed "Plans" store2 eq_refl H1 H2).
Defined.

Lemma delete_chat_store chat_id user_id w :
  db.delete_chat chat_id user_id w =
  match faults w with
  | Some msg :: fs =>
      (Ok false, Supabase.with_faults fs w,
       [Exec (DeleteChat chat_id user_id) false])
  | _ =>
      let hit := fun c => (c_id c =? chat_id)
                          && String.eqb (c_user_id c) user_id in
      (Ok (0 <? List.length (filter hit (chats w))),
       {| chats := filter (fun c => negb (hit c)) (chats w);
          messages := match filter hit (chats w) with
                      | [] => messages w
                      | _ => filter (fun m => negb (m_chat_id m =? chat_id))
                               (messages w)
                      end;
          next_id := next_id w; now := now w; faults := faults (pop w) |},
       [Exec (DeleteChat chat_id user_id) true])
  end.
Proof.
  unfold db.delete_chat, try_except, bind, Supabase.chats_delete.
  rewrite execute_unfold.
  next_outcome w; cbn [fst snd Supabase.is_ok ret app];
    rewrite ?pop_chats, ?pop_messages, ?pop_next_id, ?pop_now; reflexivity.
Qed.

(** X6. The delete endpoint never answers 500: whatever the store does it
    answers "Chat deleted successfully" or 404 "Chat not found"; a failing
    store is answered 404 and nothing is deleted.  On an available store an
    existing conversation is deleted, after which it is absent and a second
    delete is answered 404; an absent one is answered 404 and the tables
    are unchanged. *)
Theorem delete_endpoint_answers chat_id w :
  let x := app.delete_chat chat_id w in
  (result_of x = Ok "Chat deleted successfully"
   \/ result_of x = Raise (HTTPException 404 "Chat not found"))
  /\ (forall msg fs,
        faults w = Some msg :: fs ->
        result_of x = Raise (HTTPException 404 "Chat not found")
        /\ chats (store_of x) = chats w
        /\ messages (store_of x) = messages w)
  /\ (healthy w = true -> chat_exists chat_id w ->
      result_of x = Ok "Chat deleted successfully"
      /\ chat_absent chat_id (store_of x)
      /\ result_of (app.delete_chat chat_id (store_of x))
         = Raise (HTTPException 404 "Chat not found"))
  /\ (healthy w = true -> chat_absent chat_id w ->
      result_of x = Raise (HTTPException 404 "Chat not found")
      /\ chats (store_of x) = chats w
      /\ messages (store_of x) = messages w).
Proof.
  assert (forall w0, chat_absent chat_id w0 ->
            result_of (app.delete_chat chat_id w0)
            = Raise (HTTPException 404 "Chat not found")) as Habsent.
  { intros w0 Ha. unfold app.delete_chat, try_except. unfold bind at 1.
    rewrite delete_chat_store.
    pose proof (filter_owned_absent chat_id w0 Ha) as H0.
    unfold owned in H0.
    next_outcome w0; cbv zeta; rewrite ?H0; reflexivity. }
  cbv zeta. unfold app.delete_chat, try_except. unfold bind.
  rewrite delete_chat_store. split; [|split; [|split]].
  - next_outcome w; cbv zeta;
      try (destruct (0 <? List.length _); cbn; auto); cbn; auto.
  - intros msg fs Hf. rewrite Hf. cbn. auto.
  - intros Hh [row Hrow].
    assert (forall fs,
              chat_absent chat_id
                {| chats := filter (fun c => negb (owned chat_id c)) (chats w);
                   messages :=
                     filter (fun m => negb (m_chat_id m =? chat_id))
                       (messages w);
                   next_id := next_id w; now := now w; faults := fs |}) as Ha.
    { intros fs c Hc. cbn [chats] in Hc. apply filter_In in Hc.
      destruct Hc as [_ Hc]. now apply negb_true_iff in Hc. }
    unfold owned in Hrow, Ha. unfold healthy in Hh.
    next_outcome w; cbn in Hh; try discriminate; cbv zeta; rewrite Hrow;
      cbn [List.length Nat.ltb Nat.leb negb ret result_of store_of fst snd];
      (split; [reflexivity|]); (split; [apply Ha|]); apply Habsent, Ha.
  - intros Hh Ha.
    pose proof (filter_owned_absent chat_id w Ha) as H0. unfold owned in H0.
    assert (filter (fun c => negb ((c_id c =? chat_id)
                                   && String.eqb (c_user_id c) DEMO_USER_ID))
              (chats w) = chats w) as Hk.
    { apply filter_all. apply Forall_forall. intros c Hc.
      apply negb_true_iff. apply (Ha c Hc). }
    unfold healthy in Hh.
    next_outcome w; cbn in Hh; try discriminate; cbv zeta; rewrite H0, Hk;
      cbn; auto.
Qed.

Lemma delete_endpoint_answers_witness :
  (healthy store1 = true /\ chat_exists 1 store1)
  /\ result_of (app.delete_chat 1 store1) = Ok "Chat deleted successfully"
  /\ chat_absent 1 (store_of (app.delete_chat 1 store1))
  /\ result_of (app.delete_chat 1 (store_of (app.delete_chat 1 store1)))
     = Raise (HTTPException 404 "Chat not found").
Proof.
  assert (chat_exists 1 store1) as Hex by (exists chat1; reflexivity).
  split; [split; [reflexivity | exact Hex]|].
  apply (proj1 (proj2 (proj2 (delete_endpoint_answers 1 store1))) eq_refl Hex).
Defined.

(* ================================================================== *)
(** ** Further properties: the reading endpoints *)

Lemma same_tables_pop w : same_tables w (pop w).
Proof.
  unfold same_tables. now rewrite pop_chats, pop_messages, pop_next_id.
Qed.

Lemma same_tables_trans w1 w2 w3 :
  same_tables w1 w2 -> same_tables w2 w3 -> same_tables w1 w3.
Proof. unfold same_tables. intuition congruence. Qed.

Lemma get_chats_loop_frame data : forall acc w,
  same_tables w (store_of (db.get_chats_loop data acc w)).
Proof.
  induction data as [|chat_data rest IH]; intros acc w.
  - cbn. repeat split.
  - rewrite get_chats_loop_step.
    pose proof (IH (if has_messages (messages w) chat_data
                    then acc ++ [chat_data] else acc) (pop w)) as H.
    destruct (db.get_chats_loop rest _ (pop w)) as [[r w'] t].
    unfold store_of in *; cbn [fst snd] in *.
    pose proof (same_tables_trans _ _ _ (same_tables_pop w) H) as H'.
    next_outcome w; try exact H'. repeat split.
Qed.

Lemma db_get_chats_frame user_id w :
  same_tables w (store_of (db.get_chats user_id w)).
Proof.
  rewrite get_chats_unfold.
  pose proof (get_chats_loop_frame (window user_id w) [] (pop w)) as H.
  destruct (db.get_chats_loop (window user_id w) [] (pop w)) as [[r w'] t].
  unfold store_of in *; cbn [fst snd] in *.
  pose proof (same_tables_trans _ _ _ (same_tables_pop w) H) as H'.
  next_outcome w; try exact H'. repeat split.
Qed.

Lemma db_get_chat_frame chat_id user_id w :
  same_tables w (store_of (db.get_chat chat_id user_id w)).
Proof.
  rewrite get_chat_unfold.
  next_outcome w; try (repeat split);
    destruct (filter _ (chats w)) as [|row [|row' l]];
    apply same_tables_pop.
Qed.

Lemma db_get_messages_frame chat_id w :
  same_tables w (store_of (db.get_messages chat_id w)).
Proof.
  rewrite get_messages_unfold.
  next_outcome w; try (repeat split); apply same_tables_pop.
Qed.

(** X7. The three reading endpoints (the listing, a conversation with its
    messages, the messages of a conversation) write nothing, whatever the
    store does and whatever they answer: both tables and the next
    identifier are as before. *)
Theorem reading_endpoints_write_nothing chat_id w :
  same_tables w (store_of (app.get_chats w))
  /\ same_tables w (store_of (app.get_chat_with_messages chat_id w))
  /\ same_tables w (store_of (app.get_messages chat_id w)).
Proof.
  split; [|split].
  - unfold app.get_chats, try_except.
    pose proof (db_get_chats_frame DEMO_USER_ID w) as H.
    destruct (db.get_chats DEMO_USER_ID w) as [[[l|e] w'] t]; exact H.
  - unfold app.get_chat_with_messages, try_except. unfold bind at 1.
    pose proof (db_get_chat_frame chat_id DEMO_USER_ID w) as H.
    destruct (db.get_chat chat_id DEMO_USER_ID w) as [[[[c|]|e] w'] t];
      unfold store_of in H; cbn [fst snd] in H.
    + unfold bind.
      pose proof (db_get_messages_frame chat_id w') as H'.
      destruct (db.get_messages chat_id w') as [[[l|e] w''] t'];
        unfold store_of in H'; cbn [fst snd] in H';
        pose proof (same_tables_trans _ _ _ H H') as H'';
        [exact H'' | destruct e; exact H''].
    + exact H.
    + destruct e; exact H.
  - unfold app.get_messages, try_except. unfold bind at 1.
    pose proof (db_get_chat_frame chat_id DEMO_USER_ID w) as H.
    destruct (db.get_chat chat_id DEMO_USER_ID w) as [[[[c|]|e] w'] t];
      unfold store_of in H; cbn [fst snd] in H.
    + unfold bind.
      pose proof (db_get_messages_frame chat_id w') as H'.
      destruct (db.get_messages chat_id w') as [[[l|e] w''] t'];
        unfold store_of in H'; cbn [fst snd] in H';
        pose proof (same_tables_trans _ _ _ H H') as H'';
        [exact H'' | destruct e; exact H''].
    + exact H.
    + destruct e; exact H.
Qed.

Lemma get_chats_loop_raise data : forall acc w e,
  result_of (db.get_chats_loop data acc w) = Raise e ->
  exists msg, In (Some msg) (faults w) /\ e = APIError msg.
Proof.
  induction data as [|chat_data rest IH]; intros acc w e.
  - cbn. discriminate.
  - rewrite get_chats_loop_step.
    pose proof (IH (if has_messages (messages w) chat_data
                    then acc ++ [chat_data] else acc) (pop w) e) as H.
    destruct (db.get_chats_loop rest _ (pop w)) as [[r w'] t].
    unfold result_of in *; cbn [fst snd] in *. unfold pop in H.
    destruct (faults w) as [|[msg|] fs] eqn:Ef.
    + intros Hr. destruct (H Hr) as [m [Hin ->]]. rewrite Ef in Hin.
      destruct Hin.
    + intros Hr. injection Hr as <-. exists msg. split; [now left | easy].
    + intros Hr. destruct (H Hr) as [m [Hin ->]]. cbn in Hin.
      exists m. split; [now right | easy].
Qed.

Lemma get_chats_loop_calls data : forall acc w,
  healthy w = true ->
  List.length (calls (trace_of (db.get_chats_loop data acc w)))
  = List.length data.
Proof.
  induction data as [|chat_data rest IH]; intros acc w Hh; [reflexivity|].
  rewrite get_chats_loop_step.
  pose proof (IH (if has_messages (messages w) chat_data
                  then acc ++ [chat_data] else acc) (pop w)
                (pop_healthy _ Hh)) as H.
  destruct (db.get_chats_loop rest _ (pop w)) as [[r w'] t].
  unfold trace_of in *; cbn [fst snd] in *. unfold healthy in Hh.
  next_outcome w; cbn in Hh; try discriminate; cbn; now rewrite H.
Qed.

(** X8. The listing endpoint is all or nothing.  When it fails, a call to
    the store has failed and the answer is 500 with "Failed to fetch
    chats: " and the store's message: no partial list is returned.  On an
    available store it returns, having made one call for the window and
    one count per conversation of the window: at most 51 calls. *)
Theorem listing_endpoint_is_all_or_nothing w :
  let x := app.get_chats w in
  (forall e,
      result_of x = Raise e ->
      exists msg,
        In (Some msg) (faults w)
        /\ e = HTTPException 500 ("Failed to fetch chats: " ++ msg)%string)
  /\ (healthy w = true ->
      exists l,
        result_of x = Ok l
        /\ List.length (calls (trace_of x))
           = S (List.length (window DEMO_USER_ID w))
        /\ List.length (calls (trace_of x)) <= 51).
Proof.
  cbv zeta. unfold app.get_chats, try_except. rewrite get_chats_unfold. split.
  - intros e.
    pose proof (get_chats_loop_raise (window DEMO_USER_ID w) [] (pop w)) as H.
    destruct (db.get_chats_loop (window DEMO_USER_ID w) [] (pop w))
      as [[[l|e'] w'] t]; unfold result_of in *; cbn [fst snd] in *.
    + next_outcome w; cbn; try discriminate.
      intros Hr. injection Hr as <-. exists msg. split; [now left | easy].
    + destruct (H e' eq_refl) as [m [Hin ->]]. unfold pop in Hin.
      destruct (faults w) as [|[msg|] fs] eqn:Ef; cbn.
      * rewrite Ef in Hin. destruct Hin.
      * intros Hr. injection Hr as <-. exists msg. split; [now left | easy].
      * intros Hr. injection Hr as <-. exists m. cbn in Hin.
        split; [now right | easy].
  - intros Hh.
    destruct (get_chats_loop_healthy (window DEMO_USER_ID w) [] (pop w)
                (pop_healthy _ Hh)) as [l [w' [t E]]].
    pose proof (get_chats_loop_calls (window DEMO_USER_ID w) [] (pop w)
                  (pop_healthy _ Hh)) as Hc.
    rewrite E in *. unfold trace_of in Hc; cbn [snd] in Hc.
    assert (List.length (window DEMO_USER_ID w) <= 50) as Hw
      by apply firstn_le_length.
    unfold healthy in Hh.
    exists l. next_outcome w; cbn in Hh; try discriminate;
      unfold result_of, trace_of; cbn [fst snd calls List.length];
      rewrite Hc; repeat split; lia.
Qed.

Lemma listing_endpoint_is_all_or_nothing_witness :
  healthy store3 = true /\
  exists l,
    result_of (app.get_chats store3) = Ok l
    /\ List.length (calls (trace_of (app.get_chats store3)))
       = S (List.length (window DEMO_USER_ID store3))
    /\ List.length (calls (trace_of (app.get_chats store3))) <= 51.
Proof.
  split; [reflexivity|].
  apply (proj2 (listing_endpoint_is_all_or_nothing store3) eq_refl).
Defined.

Lemma faults_pop w : faults (pop w) = tl (faults w).
Proof. unfold pop. destruct (faults w) eqn:E; [now rewrite E | reflexivity]. Qed.

Lemma pop_faults_cons f fs w : faults w = f :: fs -> faults (pop w) = fs.
Proof. intros H. unfold pop. now rewrite H. Qed.

(** X9. The endpoint returning a conversation with its messages, and the
    endpoint returning the messages alone, answer alike.  For a
    conversation that is not there both answer 404.  On an available store
    the first returns the conversation's row with its messages oldest
    first and the second returns those messages.  When the conversation is
    found but the reading of the messages fails, both answer 500, each
    with its own prefix before the store's message. *)
Theorem chat_with_messages_answers chat_id w :
  let x := app.get_chat_with_messages chat_id w in
  let y := app.get_messages chat_id w in
  (chat_absent chat_id w ->
   result_of x = Raise (HTTPException 404 "Chat not found")
   /\ result_of y = Raise (HTTPException 404 "Chat not found"))
  /\ (forall row,
        healthy w = true -> filter (owned chat_id) (chats w) = [row] ->
        exists cw,
          result_of x = Ok cw
          /\ cw_id cw = c_id row
          /\ cw_title cw = c_title row
          /\ cw_user_id cw = c_user_id row
          /\ cw_messages cw
             = Supabase.order m_created_at false
                 (filter (fun m => m_chat_id m =? chat_id) (messages w))
          /\ result_of y = Ok (cw_messages cw))
  /\ (forall row msg fs,
        faults w = None :: Some msg :: fs ->
        filter (owned chat_id) (chats w) = [row] ->
        result_of x
        = Raise (HTTPException 500 ("Failed to fetch chat: " ++ msg)%string)
        /\ result_of y
           = Raise (HTTPException 500
                      ("Failed to fetch messages: " ++ msg)%string)).
Proof.
  cbv zeta. split; [|split].
  - intros Ha. destruct (get_chat_absent chat_id w Ha) as [w' [E _]].
    unfold app.get_chat_with_messages, app.get_messages, try_except.
    unfold bind. rewrite E. split; reflexivity.
  - intros row Hh Hrow.
    unfold app.get_chat_with_messages, app.get_messages, try_except.
    unfold bind. rewrite (get_chat_healthy _ _ _ Hh Hrow).
    rewrite (get_messages_healthy _ _ (pop_healthy _ Hh)).
    rewrite pop_messages. eexists. cbn. repeat split.
  - intros row msg fs Hf Hrow.
    unfold app.get_chat_with_messages, app.get_messages, try_except.
    unfold bind. rewrite get_chat_unfold, Hf.
    unfold owned in Hrow. rewrite Hrow.
    rewrite get_messages_unfold, (pop_faults_cons _ _ _ Hf).
    split; reflexivity.
Qed.

Lemma chat_with_messages_answers_witness :
  healthy store2 = true /\ filter (owned 1) (chats store2) = [chat1] /\
  exists cw,
    result_of (app.get_chat_with_messages 1 store2) = Ok cw
    /\ cw_id cw = c_id chat1
    /\ cw_title cw = c_title chat1
    /\ cw_user_id cw = c_user_id chat1
    /\ cw_messages cw
       = Supabase.order m_created_at false
           (filter (fun m => m_chat_id m =? 1) (messages store2))
    /\ result_of (app.get_messages 1 store2) = Ok (cw_messages cw).
Proof.
  split; [reflexivity|]. split; [reflexivity|].
  apply (proj1 (proj2 (chat_with_messages_answers 1 store2)) chat1
           eq_refl eq_refl).
Defined.

Lemma create_message_unfold chat_id role content is_streaming w :
  db.create_message chat_id role content is_streaming w =
  match faults w with
  | Some msg :: fs =>
      (Raise (APIError msg), Supabase.with_faults fs w,
       [Exec (InsertMessage chat_id role content is_streaming) false])
  | _ =>
      (Ok (new_message chat_id role content is_streaming w),
       inserted (new_message chat_id role content is_streaming w) w,
       [Exec (InsertMessage chat_id role content is_streaming) true])
  end.
Proof.
  unfold db.create_message. rewrite try_reraise.
  unfold bind, Supabase.messages_insert. rewrite execute_unfold.
  next_outcome w; cbn [fst snd Supabase.is_ok ret app];
    unfold new_message, inserted;
    rewrite ?pop_chats, ?pop_messages, ?pop_next_id, ?pop_now; reflexivity.
Qed.

(** X10. Nothing is rolled back when the stream endpoint fails after the
    conversation was found: the answer is 500 "Failed to start streaming: "
    with the store's message, and what was written stays.  A failure when
    writing the user message leaves the messages as they were; a failure
    when writing the placeholder leaves the user message; a failure when
    reading the history leaves the user message and the placeholder, empty
    and still flagged as streaming. *)
Theorem stream_setup_is_not_rolled_back chat_id md w row msg fs :
  filter (owned chat_id) (chats w) = [row] ->
  let x := stream_message chat_id md w in
  let user := new_message chat_id USER (mc_content md) false w in
  let failed :=
    Raise (HTTPException 500 ("Failed to start streaming: " ++ msg)%string) in
  (faults w = None :: Some msg :: fs ->
   result_of x = failed /\ messages (store_of x) = messages w)
  /\ (faults w = None :: None :: Some msg :: fs ->
      result_of x = failed /\ messages (store_of x) = messages w ++ [user])
  /\ (faults w = None :: None :: None :: Some msg :: fs ->
      result_of x = failed
      /\ exists placeholder,
           messages (store_of x) = messages w ++ [user; placeholder]
           /\ m_chat_id placeholder = chat_id
           /\ m_role placeholder = ASSISTANT
           /\ m_content placeholder = ""
           /\ m_is_streaming placeholder = true).
Proof.
  intros Hrow. cbv zeta. unfold owned in Hrow.
  assert (forall (P : Store -> Prop),
            (exists w' t,
                stream_message chat_id md w
                = (Raise (HTTPException 500
                            ("Failed to start streaming: " ++ msg)%string),
                   w', t)
                /\ P w') ->
            result_of (stream_message chat_id md w)
            = Raise (HTTPException 500
                       ("Failed to start streaming: " ++ msg)%string)
            /\ P (store_of (stream_message chat_id md w))) as Hpack.
  { intros P [w' [t [E HP]]]. rewrite E. split; [reflexivity | exact HP]. }
  assert (forall u, faults (inserted u (pop w)) = tl (tl (faults w))) as Hi1.
  { intros u. cbn [inserted faults]. now rewrite !faults_pop. }
  assert (forall u p,
            faults (inserted p (inserted u (pop w)))
            = tl (tl (tl (faults w)))) as Hi2.
  { intros u p. cbn [inserted faults]. rewrite faults_pop.
    cbn [inserted faults]. now rewrite !faults_pop. }
  split; [|split]; intros Hf.
  - apply (Hpack (fun w' => messages w' = messages w)).
    unfold stream_message, try_except; unfold bind at 1;
      rewrite get_chat_unfold, Hf, Hrow;
      unfold bind at 1; rewrite create_message_unfold, faults_pop, Hf.
    do 2 eexists. split; [reflexivity|]. apply pop_messages.
  - apply (Hpack (fun w' =>
                    messages w'
                    = messages w
                      ++ [new_message chat_id USER (mc_content md) false w])).
    unfold stream_message, try_except; unfold bind at 1;
      rewrite get_chat_unfold, Hf, Hrow;
      unfold bind at 1; rewrite create_message_unfold, faults_pop, Hf.
    cbn [tl]. unfold bind at 1. rewrite create_message_unfold, Hi1, Hf.
    do 2 eexists. split; [reflexivity|].
    cbn. rewrite pop_messages. unfold new_message.
    now rewrite pop_next_id, pop_now.
  - apply (Hpack (fun w' =>
                    exists placeholder,
                      messages w'
                      = messages w
                        ++ [new_message chat_id USER (mc_content md) false w;
                            placeholder]
                      /\ m_chat_id placeholder = chat_id
                      /\ m_role placeholder = ASSISTANT
                      /\ m_content placeholder = ""
                      /\ m_is_streaming placeholder = true)).
    unfold stream_message, try_except; unfold bind at 1;
      rewrite get_chat_unfold, Hf, Hrow;
      unfold bind at 1; rewrite create_message_unfold, faults_pop, Hf.
    cbn [tl]. unfold bind at 1. rewrite create_message_unfold, Hi1, Hf.
    cbn [tl]. unfold bind at 1. rewrite get_messages_unfold, Hi2, Hf.
    do 2 eexists. split; [reflexivity|].
    cbn. rewrite pop_messages, <- app_assoc. unfold new_message.
    rewrite !pop_next_id, !pop_now.
    eexists. split; [reflexivity|]. repeat split.
Qed.

Lemma stream_setup_is_not_rolled_back_witness :
  let w := Supabase.with_faults [None; None; Some "timeout"] store1 in
  filter (owned 1) (chats w) = [chat1]
  /\ faults w = None :: None :: Some "timeout" :: []
  /\ result_of (stream_message 1 hello w)
     = Raise (HTTPException 500 "Failed to start streaming: timeout")
  /\ messages (store_of (stream_message 1 hello w))
     = messages w ++ [new_message 1 USER "hello" false w].
Proof.
  cbv zeta. split; [reflexivity|]. split; [reflexivity|].
  apply (proj1 (proj2 (stream_setup_is_not_rolled_back 1 hello
                         (Supabase.with_faults [None; None; Some "timeout"]
                            store1)
                         chat1 "timeout" [] eq_refl)) eq_refl).
Defined.

(* ================================================================== *)
(** ** Further properties: streams that do not end well *)

(** X11. Without an API key the stream consists of one chunk, the error
    chunk naming the missing configuration, whatever the store does; on an
    available store holding the placeholder the run ends normally and the
    placeholder ends up holding the apology, no longer flagged as
    streaming.  The title task then makes no call to the store. *)
Theorem missing_api_key_is_reported_in_the_stream am ctx md w :
  let x := generate_stream None am ctx md w in
  let e :=
    ValueError "AI service not available - OpenAI API key not configured" in
  sent (trace_of x) = [error_chunk e (m_id am)]
  /\ content (error_chunk e (m_id am))
     = "Error: AI service not available - OpenAI API key not configured"
  /\ (forall chat_id first_message w0,
        calls (trace_of (generate_and_update_title None chat_id
                           first_message w0)) = [])
  /\ (healthy w = true -> has_row (m_id am) w ->
      result_of x = Ok tt
      /\ exists m,
           persisted (m_id am) (store_of x) = Some m
           /\ m_content m
              = "I apologize, but I encountered an error: AI service not available - OpenAI API key not configured"
           /\ m_is_streaming m = false).
Proof.
  cbv zeta. rewrite generate_stream_unfold. cbv zeta.
  split; [|split; [reflexivity|split; [reflexivity|]]].
  - destruct (except_clause (m_id am)
                (ValueError "AI service not available - OpenAI API key not configured")
                w) as [r [w' [ok E]]].
    rewrite E. reflexivity.
  - intros Hh Hrow. unfold bind, yield, ret.
    destruct (update_message_content_healthy (m_id am)
                (apology (ValueError "AI service not available - OpenAI API key not configured"))
                (Some false) w Hh Hrow) as [row [w' [E [_ [_ [_ Hm]]]]]].
    rewrite E. unfold result_of, store_of; cbn [fst snd].
    split; [reflexivity|].
    destruct (find_update_rows (m_id am)
                (Supabase.set_message
                   (apology (ValueError "AI service not available - OpenAI API key not configured"))
                   (Some false))
                (messages w)) as [m0 [_ Hf]]; [reflexivity | exact Hrow |].
    eexists. unfold persisted. rewrite Hm. split; [exact Hf|].
    split; reflexivity.
Qed.

Lemma missing_api_key_is_reported_in_the_stream_witness :
  let w := started_store 1 hello store1 in
  let am := assistant_message (started 1 hello store1) in
  healthy w = true /\ has_row (m_id am) w
  /\ result_of (generate_stream None am [] hello w) = Ok tt
  /\ exists m,
       persisted (m_id am) (store_of (generate_stream None am [] hello w))
       = Some m
       /\ m_content m
          = "I apologize, but I encountered an error: AI service not available - OpenAI API key not configured"
       /\ m_is_streaming m = false.
Proof.
  cbv zeta. split; [reflexivity|].
  split; [apply (started_has_row 1 hello store1)|].
  apply (proj2 (proj2 (proj2
           (missing_api_key_is_reported_in_the_stream
              (assistant_message (started 1 hello store1)) [] hello
              (started_store 1 hello store1))))
           eq_refl (started_has_row 1 hello store1)).
Defined.

Lemma filter_hit_none mid (l : list MessageResponse) :
  (forall m, In m l -> m_id m <> mid) -> filter (fun m => m_id m =? mid) l = [].
Proof.
  intros H. apply filter_none. apply Forall_forall. intros m Hin.
  apply Nat.eqb_neq. now apply H.
Qed.

Lemma update_rows_none mid f (l : list MessageResponse) :
  (forall m, In m l -> m_id m <> mid) ->
  Supabase.update_rows (fun m => m_id m =? mid) f l = l.
Proof.
  intros H. unfold Supabase.update_rows.
  induction l as [|m l IH]; [reflexivity|]. cbn [map].
  replace (m_id m =? mid) with false
    by (symmetry; apply Nat.eqb_neq, H; now left).
  f_equal. apply IH. intros m' Hin. apply H. now right.
Qed.

Lemma update_message_content_missing mid c s w :
  healthy w = true -> (forall m, In m (messages w) -> m_id m <> mid) ->
  exists w',
    db.update_message_content mid c s w
    = (Raise (Exception "Failed to update message"), w',
       [Exec (UpdateMessage mid c s) true])
    /\ healthy w' = true
    /\ messages w' = messages w
    /\ chats w' = chats w.
Proof.
  intros Hh Hno.
  unfold db.update_message_content. rewrite try_reraise.
  unfold bind, Supabase.messages_update. rewrite (execute_healthy _ _ _ Hh).
  cbn [fst snd Supabase.is_ok]. rewrite pop_messages, pop_chats.
  rewrite (filter_hit_none _ _ Hno), (update_rows_none _ _ _ Hno).
  cbn [map raise app]. eexists. split; [reflexivity|].
  cbn [healthy faults messages chats]. repeat split.
  apply (pop_healthy _ Hh).
Qed.

Lemma stream_tokens_no_checkpoint mid tokens : forall acc w,
  Forall (fun a => len a mod 50 <> 0) (accumulations acc tokens) ->
  stream_tokens mid tokens acc w
  = (Ok (acc ++ join tokens)%string, w,
     map (fun token => Sent (token_chunk token mid)) tokens).
Proof.
  induction tokens as [|token rest IH]; intros acc w Hno.
  - cbn. now rewrite append_empty_r.
  - rewrite stream_tokens_cons. cbn [accumulations] in Hno.
    inversion Hno as [|a l Ha Hrest]; subst.
    apply Nat.eqb_neq in Ha. rewrite Ha, (IH _ _ Hrest).
    cbn [join fold_right map]. now rewrite append_assoc.
Qed.

Lemma sent_token_chunks mid (tokens : list string) :
  sent (map (fun token => Sent (token_chunk token mid)) tokens)
  = token_chunks mid tokens.
Proof.
  induction tokens as [|c l IH]; [reflexivity | cbn; now rewrite IH].
Qed.

(** X12. Updating a message that is not in the table raises "Failed to
    update message" and changes nothing.  So when the placeholder is gone
    by the end of a stream that met no checkpoint (its conversation was
    deleted meanwhile, say), the client has received every token and then
    receives an error chunk with that text instead of the complete chunk;
    the write of the apology fails as well, the generator raises, and the
    tables are as before. *)
Theorem vanished_placeholder_ends_in_error ai am ctx md w :
  let mid := m_id am in
  let tokens := generate_streaming_response ai ctx (mc_content md) in
  let x := generate_stream (Some ai) am ctx md w in
  healthy w = true ->
  (forall m, In m (messages w) -> m_id m <> mid) ->
  (forall content is_streaming,
      result_of (db.update_message_content mid content is_streaming w)
      = Raise (Exception "Failed to update message"))
  /\ (Forall (fun a => len a mod 50 <> 0) (accumulations "" tokens) ->
      sent (trace_of x)
      = token_chunks mid tokens
        ++ [error_chunk (Exception "Failed to update message") mid]
      /\ result_of x = Raise (Exception "Failed to update message")
      /\ messages (store_of x) = messages w
      /\ chats (store_of x) = chats w).
Proof.
  intros mid tokens x Hh Hno. split.
  - intros content is_streaming.
    destruct (update_message_content_missing mid content is_streaming w Hh Hno)
      as [w' [E _]]. now rewrite E.
  - intros Hcp. subst x. rewrite generate_stream_unfold. cbv zeta.
    fold mid. cbn [source_tokens]. fold tokens.
    rewrite (stream_tokens_no_checkpoint mid tokens "" w Hcp).
    cbn [String.append].
    destruct (update_message_content_missing mid (join tokens) (Some false)
                w Hh Hno) as [w1 [E1 [Hh1 [Hm1 Hc1]]]].
    rewrite E1. unfold bind, yield, ret.
    assert (forall m, In m (messages w1) -> m_id m <> mid) as Hno1
      by (now rewrite Hm1).
    destruct (update_message_content_missing mid
                (apology (Exception "Failed to update message")) (Some false)
                w1 Hh1 Hno1) as [w2 [E2 [Hh2 [Hm2 Hc2]]]].
    rewrite E2. unfold result_of, store_of, trace_of; cbn [fst snd].
    split; [|split; [reflexivity | split; congruence]].
    rewrite !sent_app, sent_token_chunks. cbn [sent].
    now rewrite app_nil_r.
Qed.

(** With a checkpoint on the way the run stops there: after a token of 50
    characters the checkpoint fails, and the client receives that token
    and the error chunk. *)
Example vanished_placeholder_at_a_checkpoint :
  let am := assistant_message (started 1 hello store1) in
  let fifty := "é0123456789012345678901234567890123456789012345678" in
  sent (trace_of (generate_stream
                    (Some (scripted [Some fifty; Some "more"] None))
                    am [] hello store1))
  = [token_chunk fifty 3;
     error_chunk (Exception "Failed to update message") 3].
Proof. vm_compute. reflexivity. Qed.

Lemma vanished_placeholder_ends_in_error_witness :
  let am := assistant_message (started 1 hello store1) in
  let ai := scripted [Some "Hi"; Some " there"] None in
  healthy store1 = true
  /\ (forall m, In m (messages store1) -> m_id m <> m_id am)
  /\ sent (trace_of (generate_stream (Some ai) am [] hello store1))
     = token_chunks (m_id am) ["Hi"; " there"]
       ++ [error_chunk (Exception "Failed to update message") (m_id am)].
Proof.
  cbv zeta.
  assert (forall m, In m (messages store1)
                    -> m_id m <> m_id (assistant_message (started 1 hello store1)))
    as Hno by (intros m []).
  split; [reflexivity|]. split; [exact Hno|].
  apply (proj2 (vanished_placeholder_ends_in_error
                  (scripted [Some "Hi"; Some " there"] None)
                  (assistant_message (started 1 hello store1)) [] hello store1
                  eq_refl Hno)).
  repeat constructor; vm_compute; discriminate.
Defined.

(* ================================================================== *)
(** ** Further properties: creating a conversation, and what a stream costs *)

(** X13. The create endpoint never stores an empty title: a missing or
    empty title becomes "New Chat", any other is kept.  On an available
    store the new conversation belongs to the demo user, is appended to
    the conversations and no message is written; when the store fails the
    answer is 500 "Failed to create chat: " with the store's message and
    the tables are unchanged. *)
Theorem create_endpoint_titles chat_data w :
  let x := app.create_chat chat_data w in
  (cc_title chat_data = None \/ cc_title chat_data = Some "" ->
   or_default (cc_title chat_data) "New Chat" = "New Chat")
  /\ (forall title,
        cc_title chat_data = Some title -> title <> "" ->
        or_default (cc_title chat_data) "New Chat" = title)
  /\ (healthy w = true ->
      exists row,
        result_of x = Ok row
        /\ c_title row = or_default (cc_title chat_data) "New Chat"
        /\ c_title row <> ""
        /\ c_user_id row = DEMO_USER_ID
        /\ c_id row = next_id w
        /\ chats (store_of x) = chats w ++ [row]
        /\ messages (store_of x) = messages w)
  /\ (forall msg fs,
        faults w = Some msg :: fs ->
        result_of x
        = Raise (HTTPException 500 ("Failed to create chat: " ++ msg)%string)
        /\ chats (store_of x) = chats w
        /\ messages (store_of x) = messages w).
Proof.
  cbv zeta. split; [|split; [|split]].
  - intros [H|H]; rewrite H; reflexivity.
  - intros title H Hn. rewrite H. destruct title; [contradiction | reflexivity].
  - intros Hh. unfold app.create_chat, try_except.
    rewrite create_chat_unfold. unfold healthy in Hh.
    next_outcome w; cbn in Hh; try discriminate; cbv zeta;
      eexists; unfold result_of, store_of; cbn [fst snd];
      (split; [reflexivity|]); (split; [reflexivity|]);
      (split; [|repeat split]);
      cbn [c_title]; destruct (cc_title chat_data) as [[|c s]|];
      discriminate.
  - intros msg fs Hf. unfold app.create_chat, try_except.
    rewrite create_chat_unfold, Hf. cbn. repeat split.
Qed.

Lemma create_endpoint_titles_witness :
  healthy store1 = true /\
  exists row,
    result_of (app.create_chat {| cc_title := Some "" |} store1) = Ok row
    /\ c_title row = "New Chat"
    /\ c_title row <> ""
    /\ c_user_id row = DEMO_USER_ID
    /\ c_id row = next_id store1
    /\ chats (store_of (app.create_chat {| cc_title := Some "" |} store1))
       = chats store1 ++ [row]
    /\ messages (store_of (app.create_chat {| cc_title := Some "" |} store1))
       = messages store1.
Proof.
  split; [reflexivity|].
  apply (proj1 (proj2 (proj2
           (create_endpoint_titles {| cc_title := Some "" |} store1)))
           eq_refl).
Defined.

Lemma accumulations_length tokens : forall acc,
  List.length (accumulations acc tokens) = List.length tokens.
Proof.
  induction tokens as [|token rest IH]; intros acc; [reflexivity|].
  cbn. now rewrite IH.
Qed.

(** With tokens of one character each, the accumulated lengths run through
    consecutive numbers, and the multiples of 50 among them are counted by
    a difference of quotients. *)
Lemma checkpoints_of_single_characters tokens : forall acc,
  Forall (fun token => len token = 1) tokens ->
  List.length (filter (fun a => len a mod 50 =? 0)
                 (accumulations acc tokens))
  = (len acc + List.length tokens) / 50 - len acc / 50.
Proof.
  induction tokens as [|token rest IH]; intros acc Hone.
  - cbn [accumulations filter List.length]. rewrite Nat.add_0_r. lia.
  - inversion Hone as [|t l Ht Hrest]; subst.
    cbn [accumulations filter List.length].
    specialize (IH (acc ++ token)%string Hrest).
    rewrite len_append, Ht in IH. rewrite len_append, Ht.
    set (a := len acc) in *. set (n := List.length rest) in *.
    pose proof (Nat.div_mod_eq (a + 1 + n) 50).
    pose proof (Nat.div_mod_eq a 50).
    pose proof (Nat.div_mod_eq (a + 1) 50).
    pose proof (Nat.mod_upper_bound (a + 1 + n) 50).
    pose proof (Nat.mod_upper_bound a 50).
    pose proof (Nat.mod_upper_bound (a + 1) 50).
    replace (a + S n) with (a + 1 + n) by lia.
    destruct ((a + 1) mod 50 =? 0) eqn:E.
    + apply Nat.eqb_eq in E. cbn [List.length]. lia.
    + apply Nat.eqb_neq in E. lia.
Qed.

(** X14. What a stream costs in writes, on an available store holding the
    placeholder: never more than one write per token and the final one.
    An empty first token is written as a checkpoint of the empty text (0
    is a multiple of 50).  When every token is a single character, a
    stream of [n] tokens makes [n / 50] checkpoints and the final write. *)
Theorem store_writes_of_a_stream ai am ctx md w :
  let mid := m_id am in
  let tokens := generate_streaming_response ai ctx (mc_content md) in
  let writes := calls (trace_of (generate_stream (Some ai) am ctx md w)) in
  healthy w = true -> has_row mid w ->
  List.length writes <= S (List.length tokens)
  /\ (forall rest,
        tokens = "" :: rest ->
        hd_error writes = Some (UpdateMessage mid "" (Some true), true))
  /\ (Forall (fun token => len token = 1) tokens ->
      List.length writes = S (List.length tokens / 50)).
Proof.
  intros mid tokens writes Hh Hrow. subst writes.
  destruct (generate_stream_healthy ai am ctx md w Hh Hrow)
    as [w2 [t [m0 [E [_ [Hc _]]]]]].
  fold mid tokens in E, Hc. rewrite E. unfold trace_of; cbn [snd].
  rewrite calls_app, Hc. cbn [calls]. unfold checkpoints.
  split; [|split].
  - rewrite length_app, length_map. cbn [List.length].
    pose proof (filter_length_le (fun a => len a mod 50 =? 0)
                  (accumulations "" tokens)) as H.
    rewrite accumulations_length in H. lia.
  - intros rest ->. reflexivity.
  - intros Hone. rewrite length_app, length_map.
    rewrite (checkpoints_of_single_characters tokens "" Hone).
    cbn [List.length len]. rewrite Nat.add_0_l.
    change (0 / 50) with 0. lia.
Qed.

Lemma store_writes_of_a_stream_witness :
  let w := started_store 1 hello store1 in
  let am := assistant_message (started 1 hello store1) in
  let ai := scripted [Some ""; Some "Hi"] None in
  healthy w = true /\ has_row (m_id am) w
  /\ hd_error (calls (trace_of (generate_stream (Some ai) am [] hello w)))
     = Some (UpdateMessage (m_id am) "" (Some true), true).
Proof.
  cbv zeta. split; [reflexivity|].
  split; [apply (started_has_row 1 hello store1)|].
  apply (proj1 (proj2
           (store_writes_of_a_stream (scripted [Some ""; Some "Hi"] None)
              (assistant_message (started 1 hello store1)) [] hello
              (started_store 1 hello store1) eq_refl
              (started_has_row 1 hello store1))) ["Hi"] eq_refl).
Defined.

(** X15. The text of the user reaches the completion client twice.  The
    user message is written before the history is read, so the history
    handed to the adapter already holds it; the adapter then appends the
    text once more.  The request starts with the system prompt, and the
    tokens of the stream are those of the client's answer to it. *)
Theorem user_text_is_sent_twice chat_id md w :
  let r := started chat_id md w in
  let request := completion_request (context_messages r) (mc_content md) in
  healthy w = true -> chat_exists chat_id w ->
  result_of (stream_message chat_id md w) = Ok r
  /\ (exists before after,
        request
        = system_prompt
          :: before ++ ("user", mc_content md)
             :: after ++ [("user", mc_content md)])
  /\ (forall ai,
        generate_streaming_response ai (context_messages r) (mc_content md)
        = delta_contents (chunks (create_stream (client ai) request))
          ++ match failure (create_stream (client ai) request) with
             | Some e => [technical_difficulties e]
             | None => []
             end).
Proof.
  intros r request Hh Hex. split; [|split].
  - now rewrite (stream_message_healthy _ _ _ Hh Hex).
  - set (u := new_message chat_id USER (mc_content md) false (pop w)).
    assert (In u (context_messages r)) as Hin.
    { subst r. cbn [started context_messages]. fold u.
      apply filter_In. split.
      - eapply Permutation_in; [symmetry; apply order_perm|].
        apply filter_In. split.
        + cbn [inserted messages]. apply in_or_app. left.
          apply in_or_app. right. now left.
        + change (m_chat_id u) with chat_id. apply Nat.eqb_refl.
      - apply negb_true_iff, Nat.eqb_neq. cbn. lia. }
    apply (in_map (fun message =>
                     (MessageRole_value (m_role message), m_content message)))
      in Hin.
    change (MessageRole_value (m_role u), m_content u)
      with ("user", mc_content md) in Hin.
    apply in_split in Hin. destruct Hin as [before [after Hs]].
    exists before, after. subst request.
    unfold completion_request, _prepare_messages_for_openai.
    rewrite Hs. cbn [app]. rewrite <- app_assoc. reflexivity.
  - intros ai. reflexivity.
Qed.

Lemma user_text_is_sent_twice_witness :
  (healthy store2 = true /\ chat_exists 1 store2)
  /\ result_of (stream_message 1 hello store2) = Ok (started 1 hello store2)
  /\ completion_request (context_messages (started 1 hello store2)) "hello"
     = [system_prompt; ("user", "a"); ("assistant", "b");
        ("user", "hello"); ("user", "hello")].
Proof.
  assert (chat_exists 1 store2) as Hex by (exists chat1; reflexivity).
  split; [split; [reflexivity | exact Hex]|].
  split.
  - apply (proj1 (user_text_is_sent_twice 1 hello store2 eq_refl Hex)).
  - reflexivity.
Defined.

(* ================================================================== *)
(** ** Further properties: the title task and a completed turn *)

Lemma generate_chat_title_nonempty self first_message :
  generate_chat_title self first_message <> "".
Proof.
  unfold generate_chat_title.
  destruct (create (client self) _) as [[content|]|e]; try discriminate.
  destruct (strip is_quote (strip_space content)); discriminate.
Qed.

Lemma filter_owned_set_title chat_id title (l : list ChatResponse) :
  filter (owned chat_id)
    (Supabase.update_rows (fun c => c_id c =? chat_id)
       (Supabase.set_title title) l)
  = map (Supabase.set_title title) (filter (owned chat_id) l).
Proof.
  unfold Supabase.update_rows.
  induction l as [|c l IH]; [reflexivity|]. cbn [map filter].
  destruct (c_id c =? chat_id) eqn:E.
  - replace (owned chat_id (Supabase.set_title title c))
      with (owned chat_id c) by reflexivity.
    destruct (owned chat_id c); cbn [map]; now rewrite IH.
  - assert (owned chat_id c = false) as Ho by (unfold owned; now rewrite E).
    rewrite Ho. exact IH.
Qed.

Lemma update_chat_title_store chat_id title w :
  healthy w = true ->
  chats (store_of (db.update_chat_title chat_id title w))
  = Supabase.update_rows (fun c => c_id c =? chat_id)
      (Supabase.set_title title) (chats w)
  /\ messages (store_of (db.update_chat_title chat_id title w)) = messages w
  /\ healthy (store_of (db.update_chat_title chat_id title w)) = true.
Proof.
  intros Hh. unfold db.update_chat_title. rewrite try_reraise.
  unfold bind, Supabase.chats_update_title. rewrite (execute_healthy _ _ _ Hh).
  cbn [fst snd Supabase.is_ok].
  destruct (map _ _); cbn; rewrite pop_chats, pop_messages;
    repeat split; apply (pop_healthy _ Hh).
Qed.

(** X16. On an available store the title task names the conversation: the
    conversation is afterwards found with the generated title, which is
    never empty; the messages and the other conversations are untouched.
    When no conversation has the identifier any more, the task ends
    normally all the same and the conversations are as before. *)
Theorem title_task_names_the_conversation ai chat_id first_message w :
  let x := generate_and_update_title (Some ai) chat_id first_message w in
  let title := generate_chat_title ai first_message in
  healthy w = true ->
  title <> ""
  /\ messages (store_of x) = messages w
  /\ (forall c, In c (chats w) -> c_id c <> chat_id -> In c (chats (store_of x)))
  /\ (forall row,
        filter (owned chat_id) (chats w) = [row] ->
        result_of (db.get_chat chat_id DEMO_USER_ID (store_of x))
        = Ok (Some (Supabase.set_title title row))
        /\ c_title (Supabase.set_title title row) = title)
  /\ ((forall c, In c (chats w) -> c_id c <> chat_id) ->
      result_of x = Ok tt /\ chats (store_of x) = chats w).
Proof.
  intros x title Hh.
  destruct (update_chat_title_store chat_id title w Hh) as [Hc [Hm Hh']].
  assert (store_of x = store_of (db.update_chat_title chat_id title w)
          /\ result_of x = Ok tt) as [Ex Er].
  { subst x. unfold generate_and_update_title, try_except, get_ai_service.
    unfold bind, lift. fold title.
    destruct (db.update_chat_title chat_id title w) as [[[r|e] w1] t1];
      split; reflexivity. }
  rewrite Ex. split; [apply generate_chat_title_nonempty|].
  split; [exact Hm|]. split; [|split].
  - intros c Hin Hn. rewrite Hc. unfold Supabase.update_rows.
    apply in_map_iff. exists c. split; [|exact Hin].
    apply Nat.eqb_neq in Hn. now rewrite Hn.
  - intros row Hrow. split; [|reflexivity].
    erewrite get_chat_healthy; [reflexivity | exact Hh' |].
    rewrite Hc, filter_owned_set_title, Hrow. reflexivity.
  - intros Hno. split; [exact Er|]. rewrite Hc.
    unfold Supabase.update_rows. rewrite <- (map_id (chats w)) at 2.
    apply map_ext_in. intros c Hin.
    replace (c_id c =? chat_id) with false; [reflexivity|].
    symmetry. apply Nat.eqb_neq. now apply Hno.
Qed.

Lemma title_task_names_the_conversation_witness :
  healthy store1 = true /\ filter (owned 1) (chats store1) = [chat1]
  /\ result_of (db.get_chat 1 DEMO_USER_ID
                  (store_of (generate_and_update_title
                               (Some (scripted [] None)) 1 "hello" store1)))
     = Ok (Some (Supabase.set_title "Greeting" chat1)).
Proof.
  split; [reflexivity|]. split; [reflexivity|].
  apply (proj1 (proj1 (proj2 (proj2 (proj2
           (title_task_names_the_conversation (scripted [] None) 1 "hello"
              store1 eq_refl)))) chat1 eq_refl)).
Defined.

Lemma update_rows_hit_rows mid c s (l : list MessageResponse) m' :
  In m' (Supabase.update_rows (hit mid) (Supabase.set_message c s) l) ->
  m_id m' = mid ->
  exists m, m' = Supabase.set_message c s m.
Proof.
  unfold Supabase.update_rows. intros Hin Hid.
  apply in_map_iff in Hin. destruct Hin as [m [E _]].
  unfold hit in E. destruct (m_id m =? mid) eqn:Em.
  - exists m. now symmetry.
  - subst m'. apply Nat.eqb_neq in Em. contradiction.
Qed.

(** On an available store, after a run with the AI service in place, every
    row carrying the placeholder's identifier holds the whole text and is
    no longer flagged as streaming. *)
Lemma generate_stream_healthy_rows ai am ctx md w :
  let mid := m_id am in
  let tokens := generate_streaming_response ai ctx (mc_content md) in
  let x := generate_stream (Some ai) am ctx md w in
  healthy w = true -> has_row mid w ->
  healthy (store_of x) = true
  /\ (forall m', In m' (messages (store_of x)) -> m_id m' = mid ->
        m_content m' = join tokens /\ m_is_streaming m' = false).
Proof.
  intros mid tokens x Hh Hrow. subst x. rewrite generate_stream_unfold.
  fold mid. cbn [source_tokens]. fold tokens.
  destruct (stream_tokens_healthy mid tokens "" w Hh Hrow)
    as [w1 [t1 [E1 [Hh1 [Hrow1 _]]]]].
  rewrite E1. cbn [String.append].
  destruct (update_message_content_healthy mid (join tokens) (Some false)
              w1 Hh1 Hrow1) as [row [w2 [E2 [Hh2 [_ [_ Hm]]]]]].
  rewrite E2. unfold store_of; cbn [fst snd]. split; [exact Hh2|].
  intros m' Hin Hid. rewrite Hm in Hin.
  destruct (update_rows_hit_rows _ _ _ _ _ Hin Hid) as [m ->].
  split; reflexivity.
Qed.

Lemma touches_only_filter_length mid chat_id l l' :
  touches_only mid l l' ->
  List.length (filter (fun m => m_chat_id m =? chat_id) l')
  = List.length (filter (fun m => m_chat_id m =? chat_id) l).
Proof.
  unfold touches_only. induction 1 as [|a b l l' Hab _ IH]; [reflexivity|].
  cbn [filter]. destruct Hab as [_ [-> _]].
  destruct (m_chat_id a =? chat_id); cbn [List.length]; now rewrite IH.
Qed.

Lemma started_store_chats chat_id md w :
  chats (started_store chat_id md w) = chats w.
Proof.
  unfold started_store. rewrite pop_chats. cbn [inserted chats].
  apply pop_chats.
Qed.

(** X17. A completed turn is read back.  After a valid call on an
    available store and the run of its stream to the end, the messages
    endpoint returns a history that holds the user's message with the
    text sent, and the assistant's message with the whole concatenation of
    the tokens, neither flagged as streaming; the history is two messages
    longer than the conversation was. *)
Theorem completed_turn_is_read_back ai chat_id md w :
  let r := started chat_id md w in
  let tokens :=
    generate_streaming_response ai (context_messages r) (mc_content md) in
  let x := run_stream (Some ai) r (started_store chat_id md w) in
  healthy w = true -> chat_exists chat_id w ->
  result_of (stream_message chat_id md w) = Ok r
  /\ exists history user assistant,
       result_of (app.get_messages chat_id (store_of x)) = Ok history
       /\ In user history
       /\ m_role user = USER
       /\ m_content user = mc_content md
       /\ m_is_streaming user = false
       /\ In assistant history
       /\ m_role assistant = ASSISTANT
       /\ m_content assistant = join tokens
       /\ m_is_streaming assistant = false
       /\ List.length history
          = 2 + List.length
                  (filter (fun m => m_chat_id m =? chat_id) (messages w)).
Proof.
  intros r tokens x Hh [row Hrow].
  assert (chat_exists chat_id w) as Hex by (exists row; exact Hrow).
  split; [now rewrite (stream_message_healthy _ _ _ Hh Hex)|].
  set (w1 := started_store chat_id md w) in *.
  set (u := new_message chat_id USER (mc_content md) false (pop w)).
  set (p := assistant_message r).
  assert (healthy w1 = true) as Hh1 by apply (started_store_healthy _ _ _ Hh).
  assert (has_row (m_id p) w1) as Hrow1 by apply started_has_row.
  destruct (generate_stream_healthy_rows ai p (context_messages r) md w1
              Hh1 Hrow1) as [Hh2 Hrows].
  destruct (generate_stream_frame (Some ai) p (context_messages r) md w1)
    as [Hc Ht].
  fold tokens in Hrows.
  change (generate_stream (Some ai) p (context_messages r) md w1) with x
    in Hh2, Hrows, Hc, Ht.
  assert (messages w1 = messages w ++ [u; p]) as Hm1
    by apply started_store_messages.
  assert (In u (messages w1)) as Hu
    by (rewrite Hm1; apply in_or_app; right; now left).
  assert (In p (messages w1)) as Hp
    by (rewrite Hm1; apply in_or_app; right; right; now left).
  assert (m_id u <> m_id p) as Hup.
  { subst u p r. cbn. rewrite !pop_next_id. lia. }
  destruct (touches_only_In _ _ _ _ Ht Hu) as [u' [Hu' [_ [_ [_ Hsame]]]]].
  rewrite (Hsame Hup) in Hu'. clear u' Hsame.
  destruct (touches_only_In _ _ _ _ Ht Hp) as [p' [Hp' [Hid [Hcid [Hrole _]]]]].
  destruct (Hrows p' Hp' Hid) as [Hcontent Hflag].
  assert (filter (owned chat_id) (chats (store_of x)) = [row]) as Hrow2.
  { rewrite Hc. unfold w1. now rewrite started_store_chats. }
  exists (Supabase.order m_created_at false
            (filter (fun m => m_chat_id m =? chat_id) (messages (store_of x)))),
    u, p'.
  split.
  { unfold app.get_messages, try_except, bind.
    rewrite (get_chat_healthy _ _ _ Hh2 Hrow2).
    rewrite (get_messages_healthy _ _ (pop_healthy _ Hh2)).
    now rewrite pop_messages. }
  split.
  { eapply Permutation_in; [symmetry; apply order_perm|].
    apply filter_In. split; [exact Hu' | apply Nat.eqb_refl]. }
  do 3 (split; [reflexivity|]).
  split.
  { eapply Permutation_in; [symmetry; apply order_perm|].
    apply filter_In. split; [exact Hp'|]. rewrite Hcid. apply Nat.eqb_refl. }
  split; [exact Hrole|]. split; [exact Hcontent|]. split; [exact Hflag|].
  rewrite (Permutation_length (order_perm _ _ _)).
  rewrite (touches_only_filter_length _ chat_id _ _ Ht), Hm1, filter_app.
  cbn [filter]. change (m_chat_id u) with chat_id.
  change (m_chat_id p) with chat_id. rewrite Nat.eqb_refl, length_app.
  cbn [List.length]. lia.
Qed.

Lemma completed_turn_is_read_back_witness :
  let ai := scripted [Some "Hi"; Some " there"; Some "!"] None in
  let x := run_stream (Some ai) (started 1 hello store1)
             (started_store 1 hello store1) in
  (healthy store1 = true /\ chat_exists 1 store1)
  /\ exists history user assistant,
       result_of (app.get_messages 1 (store_of x)) = Ok history
       /\ In user history
       /\ m_role user = USER
       /\ m_content user = "hello"
       /\ m_is_streaming user = false
       /\ In assistant history
       /\ m_role assistant = ASSISTANT
       /\ m_content assistant = "Hi there!"
       /\ m_is_streaming assistant = false
       /\ List.length history
          = 2 + List.length
                  (filter (fun m => m_chat_id m =? 1) (messages store1)).
Proof.
  cbv zeta.
  assert (chat_exists 1 store1) as Hex by (exists chat1; reflexivity).
  split; [split; [reflexivity | exact Hex]|].
  apply (proj2 (completed_turn_is_read_back
                  (scripted [Some "Hi"; Some " there"; Some "!"] None)
                  1 hello store1 eq_refl Hex)).
Defined.

(* ================================================================== *)
(** ** Further properties: what the endpoints raise *)

(** Case analysis on every outcome and every selection in sight. *)
Ltac all_outcomes :=
  repeat match goal with
         | |- context [match faults ?w with _ => _ end] =>
             let msg := fresh "msg" in
             let fs := fresh "fs" in
             destruct (faults w) as [|[msg|] fs]
         | |- context [match filter ?p ?l with _ => _ end] =>
             let row := fresh "row" in
             let row' := fresh "row" in
             let l' := fresh "l" in
             destruct (filter p l) as [|row [|row' l']]
         end.

Ltac is_http_error :=
  let H := fresh "H" in
  intros H; cbn in H;
  first [ discriminate H
        | injection H as <-; do 2 eexists; (split; [reflexivity | auto]) ].

Lemma get_chat_with_messages_raises chat_id w e :
  result_of (app.get_chat_with_messages chat_id w) = Raise e -> http_error e.
Proof.
  unfold app.get_chat_with_messages, try_except. unfold bind at 1.
  rewrite get_chat_unfold. all_outcomes; try is_http_error;
    unfold bind at 1; rewrite get_messages_unfold; all_outcomes;
    is_http_error.
Qed.

Lemma get_messages_raises chat_id w e :
  result_of (app.get_messages chat_id w) = Raise e -> http_error e.
Proof.
  unfold app.get_messages, try_except. unfold bind at 1.
  rewrite get_chat_unfold. all_outcomes; try is_http_error;
    unfold bind at 1; rewrite get_messages_unfold; all_outcomes;
    is_http_error.
Qed.

Lemma delete_chat_raises chat_id w e :
  result_of (app.delete_chat chat_id w) = Raise e -> http_error e.
Proof.
  unfold app.delete_chat, try_except. unfold bind at 1.
  rewrite delete_chat_store. all_outcomes; cbv zeta;
    try (destruct (0 <? List.length _)); is_http_error.
Qed.

Lemma create_chat_raises chat_data w e :
  result_of (app.create_chat chat_data w) = Raise e -> http_error e.
Proof.
  unfold app.create_chat, try_except. rewrite create_chat_unfold.
  all_outcomes; is_http_error.
Qed.

Lemma get_chats_raises w e :
  result_of (app.get_chats w) = Raise e -> http_error e.
Proof.
  unfold app.get_chats, try_except.
  destruct (db.get_chats DEMO_USER_ID w) as [[[l|e'] w'] t]; is_http_error.
Qed.

Lemma stream_message_raises chat_id md w e :
  result_of (stream_message chat_id md w) = Raise e -> http_error e.
Proof.
  unfold stream_message, try_except. unfold bind at 1.
  rewrite get_chat_unfold. all_outcomes; try is_http_error;
    unfold bind at 1; rewrite create_message_unfold; all_outcomes;
    try is_http_error;
    unfold bind at 1; rewrite create_message_unfold; all_outcomes;
    try is_http_error;
    unfold bind at 1; rewrite get_messages_unfold; all_outcomes;
    is_http_error.
Qed.

(** X18. Whatever the store does, an endpoint that fails raises an
    [HTTPException] with status 404 or 500, and nothing else: no exception
    of the store or of the gateway leaves an endpoint, so the handler for
    unexpected exceptions is not reached from them.  The listing and the
    create endpoint fail with 500 only, the delete endpoint with 404
    only. *)
Theorem endpoints_raise_http_errors_only chat_id chat_data md w e :
  (result_of (app.get_chats w) = Raise e
   \/ result_of (app.create_chat chat_data w) = Raise e ->
   exists detail, e = HTTPException 500 detail)
  /\ (result_of (app.delete_chat chat_id w) = Raise e ->
      e = HTTPException 404 "Chat not found")
  /\ (result_of (app.get_chat_with_messages chat_id w) = Raise e
      \/ result_of (app.get_messages chat_id w) = Raise e
      \/ result_of (stream_message chat_id md w) = Raise e ->
      http_error e).
Proof.
  split; [|split].
  - intros [H|H].
    + unfold app.get_chats, try_except in H.
      destruct (db.get_chats DEMO_USER_ID w) as [[[l|e'] w'] t];
        cbn in H; [discriminate | injection H as <-; eauto].
    + unfold app.create_chat, try_except in H.
      rewrite create_chat_unfold in H.
      destruct (faults w) as [|[msg|] fs]; cbn in H;
        [discriminate | injection H as <-; eauto | discriminate].
  - unfold app.delete_chat, try_except. unfold bind at 1.
    rewrite delete_chat_store.
    destruct (faults w) as [|[msg|] fs]; cbv zeta;
      try (destruct (0 <? List.length _)); cbn; intros H;
      try discriminate H; now injection H as <-.
  - intros [H|[H|H]].
    + exact (get_chat_with_messages_raises _ _ _ H).
    + exact (get_messages_raises _ _ _ H).
    + exact (stream_message_raises _ _ _ _ H).
Qed.

Lemma endpoints_raise_http_errors_only_witness :
  result_of (app.get_messages 1 store_down)
  = Raise (HTTPException 404 "Chat not found")
  /\ http_error (HTTPException 404 "Chat not found").
Proof.
  split; [reflexivity|].
  apply (proj2 (proj2 (endpoints_raise_http_errors_only 1
                         {| cc_title := None |} hello store_down
                         (HTTPException 404 "Chat not found")))).
  right. left. reflexivity.
Defined.
